(** * Authorization and tenant scoping of the tenant dashboard

    A shallow embedding of the role policy ([lib/permissions.ts]), the mock
    API layer ([lib/mock-api.ts]), the identity session ([AuthContext.tsx]),
    the tenant scope ([TenantContext.tsx]) and the access guard
    ([ProtectedRoute.tsx]), followed by the properties of the specification
    that were checked against them. *)

From Stdlib Require Import Ascii String.
From stdpp Require Import base strings list option gmap pretty.

Local Open Scope string_scope.
Local Open Scope list_scope.

(** ** Core types ([src/types/index.ts]) *)

(** [UserRole] is the union of three string literals. *)
Inductive UserRole : Type := super_admin | org_admin | member.

#[global] Instance UserRole_eq_dec : EqDecision UserRole.
Proof. solve_decision. Defined.

(** The string literal a role is at run time (used by template strings). *)
Definition UserRole_literal (r : UserRole) : string :=
  match r with
  | super_admin => "super_admin"
  | org_admin => "org_admin"
  | member => "member"
  end.

(** [User['status']]. *)
Inductive UserStatus : Type := active | inactive | pending.

#[global] Instance UserStatus_eq_dec : EqDecision UserStatus.
Proof. solve_decision. Defined.

Definition UserStatus_literal (s : UserStatus) : string :=
  match s with
  | active => "active"
  | inactive => "inactive"
  | pending => "pending"
  end.

(** [interface Tenant]; an optional field ([logoUrl?]) is an [option]. The
    fields carry the interface's name as a prefix, since [Tenant] and [User]
    share [id], [name] and [createdAt]. *)
Record Tenant : Type := mkTenant {
  Tenant_id : string;
  Tenant_name : string;
  Tenant_slug : string;
  Tenant_logoUrl : option string;
  Tenant_createdAt : string;
}.

#[global] Instance Tenant_eq_dec : EqDecision Tenant.
Proof. solve_decision. Defined.

(** [interface User]. *)
Record User : Type := mkUser {
  User_id : string;
  User_email : string;
  User_name : string;
  User_role : UserRole;
  User_tenantId : string;
  User_avatarUrl : option string;
  User_createdAt : string;
  User_lastLoginAt : option string;
  User_status : UserStatus;
}.

#[global] Instance User_eq_dec : EqDecision User.
Proof. solve_decision. Defined.

(** [interface AuthState] and [interface TenantState]. Both call their third
    field [isLoading]; they are told apart here the way [ProtectedRoute]
    renames them when it reads both ([authLoading], [tenantLoading]). *)
Record AuthState : Type := mkAuthState {
  user : option User;
  isAuthenticated : bool;
  authLoading : bool;
}.

(** [currentTenant] is declared [Tenant | null]; [tenants[0]] on an empty
    array is [undefined]. Every reader of [currentTenant] tests it by
    truthiness or optional chaining, so both are the absent tenant [None]. *)
Record TenantState : Type := mkTenantState {
  currentTenant : option Tenant;
  availableTenants : list Tenant;
  tenantLoading : bool;
}.

(** [interface Permission]. *)
Record Permission : Type := mkPermission {
  canViewAllTenants : bool;
  canSwitchTenants : bool;
  canManageUsers : bool;
  canEditSettings : bool;
  canViewAnalytics : bool;
}.

(** [interface NavItem]. *)
Record NavItem : Type := mkNavItem {
  label : string;
  path : string;
  icon : string;
  requiredRoles : list UserRole;
}.

(** ** JavaScript operations the code relies on *)

(** [Array.prototype.includes] on values compared by [===]. *)
Definition includes {A : Type} `{EqDecision A} (l : list A) (x : A) : bool :=
  bool_decide (x ∈ l).

(** Truthiness of a string: every string but the empty one. A
    [string | null] is an [option string], and [null] is falsy. *)
Definition truthy (s : string) : bool := negb (bool_decide (s = "")).

(** ** Role policy ([lib/permissions.ts]) *)

Definition getPermissions (role : UserRole) : Permission :=
  match role with
  | super_admin =>
      {| canViewAllTenants := true;
         canSwitchTenants := true;
         canManageUsers := true;
         canEditSettings := true;
         canViewAnalytics := true |}
  | org_admin =>
      {| canViewAllTenants := false;
         canSwitchTenants := false;
         canManageUsers := true;
         canEditSettings := true;
         canViewAnalytics := true |}
  | member =>
      {| canViewAllTenants := false;
         canSwitchTenants := false;
         canManageUsers := false;
         canEditSettings := false;
         canViewAnalytics := true |}
  end.

Definition navigationItems : list NavItem :=
  [ {| label := "Dashboard";
       path := "/dashboard";
       icon := "LayoutDashboard";
       requiredRoles := [super_admin; org_admin; member] |};
    {| label := "Users";
       path := "/dashboard/users";
       icon := "Users";
       requiredRoles := [super_admin; org_admin] |};
    {| label := "Settings";
       path := "/dashboard/settings";
       icon := "Settings";
       requiredRoles := [super_admin; org_admin] |} ].

Definition getNavigationForRole (role : UserRole) : list NavItem :=
  List.filter (fun item => includes (requiredRoles item) role) navigationItems.

Definition canAccessRoute (role : UserRole) (p : string) : bool :=
  match List.find (fun item => bool_decide (path item = p)) navigationItems with
  | None => true
  | Some navItem => includes (requiredRoles navItem) role
  end.

Definition getRoleDisplayName (role : UserRole) : string :=
  match role with
  | super_admin => "Super Admin"
  | org_admin => "Organization Admin"
  | member => "Member"
  end.

(** ** Effects: promises, exceptions and the browser's state *)

(** [new Error(message)]. *)
Inductive Error : Type := mkError (message : string).

#[global] Instance Error_eq_dec : EqDecision Error.
Proof. solve_decision. Defined.

(** How an awaited promise settles, or how a call ends: with a value, or
    with a thrown error. *)
Inductive Outcome (A : Type) : Type :=
  | Resolved (a : A)
  | Rejected (e : Error).
Arguments Resolved {A} a.
Arguments Rejected {A} e.

(** What the two providers and [localStorage] hold between two steps. *)
Record World : Type := mkWorld {
  localStorage : gmap string string;
  auth : AuthState;
  tenant : TenantState;
}.

Definition with_localStorage (ls : gmap string string) (w : World) : World :=
  {| localStorage := ls; auth := auth w; tenant := tenant w |}.

Definition with_auth (a : AuthState) (w : World) : World :=
  {| localStorage := localStorage w; auth := a; tenant := tenant w |}.

Definition with_tenant (t : TenantState) (w : World) : World :=
  {| localStorage := localStorage w; auth := auth w; tenant := t |}.

(** A computation over the world that returns or throws. A throw keeps the
    writes made before it. *)
Definition Eff (A : Type) : Type := World -> Outcome A * World.

Definition ret {A : Type} (a : A) : Eff A := fun w => (Resolved a, w).

Definition bind {A B : Type} (m : Eff A) (k : A -> Eff B) : Eff B :=
  fun w =>
    match m w with
    | (Resolved a, w') => k a w'
    | (Rejected e, w') => (Rejected e, w')
    end.

Definition throw {A : Type} (e : Error) : Eff A := fun w => (Rejected e, w).

(** [try { body } catch (error) { handler }]. *)
Definition try_catch {A : Type} (body : Eff A) (handler : Error -> Eff A) : Eff A :=
  fun w =>
    match body w with
    | (Resolved a, w') => (Resolved a, w')
    | (Rejected e, w') => handler e w'
    end.

(** [await p], for a promise of a collaborator that settles as [p]. *)
Definition await {A : Type} (p : Outcome A) : Eff A := fun w => (p, w).

Declare Scope eff_scope.
Delimit Scope eff_scope with eff.
Notation "x <- m ;; k" := (bind m (fun x => k))
  (at level 100, m at next level, right associativity) : eff_scope.
Notation "m ;; k" := (bind m (fun _ => k))
  (at level 100, right associativity) : eff_scope.

(** The [Storage] interface of [localStorage]. *)
Definition getItem (key : string) : Eff (option string) :=
  fun w => (Resolved (localStorage w !! key), w).

Definition setItem (key value : string) : Eff unit :=
  fun w => (Resolved tt, with_localStorage (<[key := value]> (localStorage w)) w).

Definition removeItem (key : string) : Eff unit :=
  fun w => (Resolved tt, with_localStorage (delete key (localStorage w)) w).

(** [setState] of each provider, in its functional form
    [setState(prev => ...)]; [setState(value)] is the constant update. *)
Definition setAuthState (f : AuthState -> AuthState) : Eff unit :=
  fun w => (Resolved tt, with_auth (f (auth w)) w).

Definition setTenantState (f : TenantState -> TenantState) : Eff unit :=
  fun w => (Resolved tt, with_tenant (f (tenant w)) w).

(** ** Mock API layer ([lib/mock-api.ts]) *)

Definition mockTenants : list Tenant :=
  [ {| Tenant_id := "tenant-1";
       Tenant_name := "Acme Corporation";
       Tenant_slug := "acme";
       Tenant_logoUrl := None;
       Tenant_createdAt := "2024-01-15T10:00:00Z" |};
    {| Tenant_id := "tenant-2";
       Tenant_name := "TechStart Inc";
       Tenant_slug := "techstart";
       Tenant_logoUrl := None;
       Tenant_createdAt := "2024-02-20T14:30:00Z" |};
    {| Tenant_id := "tenant-3";
       Tenant_name := "Global Dynamics";
       Tenant_slug := "global-dynamics";
       Tenant_logoUrl := None;
       Tenant_createdAt := "2024-03-10T09:15:00Z" |} ].

Definition mockUsers : list User :=
  [ {| User_id := "user-1";
       User_email := "superadmin@platform.com";
       User_name := "Sarah Chen";
       User_role := super_admin;
       User_tenantId := "tenant-1";
       User_avatarUrl := None;
       User_createdAt := "2024-01-15T10:00:00Z";
       User_lastLoginAt := Some "2024-12-22T08:30:00Z";
       User_status := active |};
    {| User_id := "user-2";
       User_email := "admin@acme.com";
       User_name := "Michael Torres";
       User_role := org_admin;
       User_tenantId := "tenant-1";
       User_avatarUrl := None;
       User_createdAt := "2024-01-20T11:00:00Z";
       User_lastLoginAt := Some "2024-12-21T14:20:00Z";
       User_status := active |};
    {| User_id := "user-3";
       User_email := "member@acme.com";
       User_name := "Emily Watson";
       User_role := member;
       User_tenantId := "tenant-1";
       User_avatarUrl := None;
       User_createdAt := "2024-02-05T09:00:00Z";
       User_lastLoginAt := Some "2024-12-20T16:45:00Z";
       User_status := active |};
    {| User_id := "user-4";
       User_email := "admin@techstart.com";
       User_name := "David Kim";
       User_role := org_admin;
       User_tenantId := "tenant-2";
       User_avatarUrl := None;
       User_createdAt := "2024-02-20T14:30:00Z";
       User_lastLoginAt := Some "2024-12-19T10:00:00Z";
       User_status := active |};
    {| User_id := "user-5";
       User_email := "member@techstart.com";
       User_name := "Lisa Park";
       User_role := member;
       User_tenantId := "tenant-2";
       User_avatarUrl := None;
       User_createdAt := "2024-02-25T08:00:00Z";
       User_lastLoginAt := None;
       User_status := pending |};
    {| User_id := "user-6";
       User_email := "admin@global.com";
       User_name := "James Wilson";
       User_role := org_admin;
       User_tenantId := "tenant-3";
       User_avatarUrl := None;
       User_createdAt := "2024-03-10T09:15:00Z";
       User_lastLoginAt := Some "2024-12-18T12:30:00Z";
       User_status := active |};
    {| User_id := "user-7";
       User_email := "member1@global.com";
       User_name := "Anna Schmidt";
       User_role := member;
       User_tenantId := "tenant-3";
       User_avatarUrl := None;
       User_createdAt := "2024-03-15T10:00:00Z";
       User_lastLoginAt := None;
       User_status := inactive |};
    {| User_id := "user-8";
       User_email := "member2@global.com";
       User_name := "Carlos Rivera";
       User_role := member;
       User_tenantId := "tenant-3";
       User_avatarUrl := None;
       User_createdAt := "2024-03-20T11:00:00Z";
       User_lastLoginAt := Some "2024-12-17T09:00:00Z";
       User_status := active |} ].

(** The three clock reads of one [authApi.login] call, in evaluation order:
    [Date.now()] for the id, then [new Date().toISOString()] for [createdAt]
    and again for [lastLoginAt]. *)
Record Clock : Type := mkClock {
  Date_now : Z;
  createdAt_iso : string;
  lastLoginAt_iso : string;
}.

(** The collaborators of the two providers, as the modules [authApi] and
    [tenantsApi] present them: each call is a promise. *)
Record AuthApi : Type := mkAuthApi {
  api_login : UserRole -> string -> Outcome User;
  api_logout : Outcome unit;
}.

Record TenantsApi : Type := mkTenantsApi {
  api_getAll : Outcome (list Tenant);
}.

(** [authApi.login]; [await delay(MOCK_DELAY)] only lets time pass. *)
Definition authApi_login (clock : Clock) (role : UserRole) (tenantId : string)
    : Outcome User :=
  let user :=
    List.find
      (fun u => bool_decide (User_role u = role) && bool_decide (User_tenantId u = tenantId))
      mockUsers in
  let user :=
    if bool_decide (role = super_admin)
    then List.find (fun u => bool_decide (User_role u = super_admin)) mockUsers
    else user in
  let user :=
    match user with
    | Some u => u
    | None =>
        {| User_id := "user-" +:+ pretty (Date_now clock);
           User_email := UserRole_literal role +:+ "@" +:+ tenantId +:+ ".com";
           User_name :=
             if bool_decide (role = super_admin) then "Super Admin"
             else if bool_decide (role = org_admin) then "Org Admin"
             else "Member";
           User_role := role;
           User_tenantId := tenantId;
           User_avatarUrl := None;
           User_createdAt := createdAt_iso clock;
           User_lastLoginAt := Some (lastLoginAt_iso clock);
           User_status := active |}
    end in
  Resolved user.

(** [authApi.logout]: [await delay(300)] and nothing else. *)
Definition authApi_logout : Outcome unit := Resolved tt.

Definition authApi (clock : Clock) : AuthApi :=
  {| api_login := authApi_login clock; api_logout := authApi_logout |}.

(** [tenantsApi.getAll]. *)
Definition tenantsApi_getAll : Outcome (list Tenant) := Resolved mockTenants.

Definition tenantsApi : TenantsApi := {| api_getAll := tenantsApi_getAll |}.

(** ** Identity session ([contexts/AuthContext.tsx]) *)

Definition AUTH_STORAGE_KEY : string := "dashboard_auth".

(** The state [useState] starts from. *)
Definition initialAuthState : AuthState :=
  {| user := None; isAuthenticated := false; authLoading := true |}.

(** [{ ...prev, isLoading: b }]. *)
Definition with_authLoading (b : bool) (prev : AuthState) : AuthState :=
  {| user := user prev; isAuthenticated := isAuthenticated prev; authLoading := b |}.

(** What a hook reads at a render: the provider's current state. *)
Definition useAuth : Eff AuthState := fun w => (Resolved (auth w), w).

Section AuthContext.

(** The platform's [JSON] object at the type the session uses it at.
    [JSON_parse s = None] is the [SyntaxError] that [JSON.parse] throws on
    a text that is not JSON; [JSON.parse(stored) as User] is an unchecked
    cast, so a text that parses is taken as the [User] it denotes. A text
    that is JSON of another value ([null], a number, an object of another
    shape) has no place in this type: the properties of the restore effect
    are stated for a text that does not parse, or for a text that [login]
    wrote. *)
Variable JSON_stringify : User -> string.
Variable JSON_parse : string -> option User.

(** [JSON.parse] as a call that returns or throws. *)
Definition JSON_parse_call (text : string) : Eff User :=
  match JSON_parse text with
  | Some v => ret v
  | None => throw (mkError "SyntaxError")
  end.

(** The effect that runs once on mount: restore the session. *)
Definition restoreAuth : Eff unit :=
  (stored <- getItem AUTH_STORAGE_KEY;;
   match stored with
   | Some text =>
       if truthy text then
         try_catch
           (user <- JSON_parse_call text;;
            setAuthState (fun _ =>
              {| user := Some user; isAuthenticated := true; authLoading := false |}))
           (fun _ =>
              removeItem AUTH_STORAGE_KEY;;
              setAuthState (with_authLoading false))
       else setAuthState (with_authLoading false)
   | None => setAuthState (with_authLoading false)
   end)%eff.

Definition login (api : AuthApi) (role : UserRole) (tenantId : string) : Eff unit :=
  (setAuthState (with_authLoading true);;
   try_catch
     (user <- await (api_login api role tenantId);;
      setItem AUTH_STORAGE_KEY (JSON_stringify user);;
      setAuthState (fun _ =>
        {| user := Some user; isAuthenticated := true; authLoading := false |}))
     (fun error =>
        setAuthState (with_authLoading false);;
        throw error))%eff.

Definition logout (api : AuthApi) : Eff unit :=
  (await (api_logout api);;
   removeItem AUTH_STORAGE_KEY;;
   setAuthState (fun _ =>
     {| user := None; isAuthenticated := false; authLoading := false |}))%eff.

End AuthContext.

(** ** Tenant scope ([contexts/TenantContext.tsx]) *)

Definition TENANT_STORAGE_KEY : string := "dashboard_tenant".

Definition initialTenantState : TenantState :=
  {| currentTenant := None; availableTenants := []; tenantLoading := true |}.

(** [{ ...prev, isLoading: b }], [{ ...prev, currentTenant: t }] and
    [{ ...prev, availableTenants: ts }]. *)
Definition with_tenantLoading (b : bool) (prev : TenantState) : TenantState :=
  {| currentTenant := currentTenant prev;
     availableTenants := availableTenants prev;
     tenantLoading := b |}.

Definition with_currentTenant (t : option Tenant) (prev : TenantState) : TenantState :=
  {| currentTenant := t;
     availableTenants := availableTenants prev;
     tenantLoading := tenantLoading prev |}.

Definition with_availableTenants (ts : list Tenant) (prev : TenantState) : TenantState :=
  {| currentTenant := currentTenant prev;
     availableTenants := ts;
     tenantLoading := tenantLoading prev |}.

Definition useTenant : Eff TenantState := fun w => (Resolved (tenant w), w).

(** [a || b] where [a] is an object or [undefined]. *)
Definition or_else {A : Type} (a b : option A) : option A :=
  match a with
  | Some x => Some x
  | None => b
  end.

(** [tenants.find(t => t.id === id)]. *)
Definition find_tenant (tid : string) (tenants : list Tenant) : option Tenant :=
  List.find (fun t => bool_decide (Tenant_id t = tid)) tenants.

(** The effect that runs when [isAuthenticated] or [user] changes. *)
Definition loadTenants (api : TenantsApi) : Eff unit :=
  (a <- useAuth;;
   match isAuthenticated a, user a with
   | true, Some user =>
       setTenantState (with_tenantLoading true);;
       try_catch
         (tenants <- await (api_getAll api);;
          storedTenantId <- getItem TENANT_STORAGE_KEY;;
          let currentTenant :=
            if bool_decide (User_role user = super_admin) then
              match storedTenantId with
              | Some sid =>
                  if truthy sid
                  then or_else (find_tenant sid tenants) (head tenants)
                  else head tenants
              | None => head tenants
              end
            else or_else (find_tenant (User_tenantId user) tenants) None in
          match currentTenant with
          | Some t => setItem TENANT_STORAGE_KEY (Tenant_id t)
          | None => ret tt
          end;;
          setTenantState (fun _ =>
            {| currentTenant := currentTenant;
               availableTenants :=
                 if bool_decide (User_role user = super_admin) then tenants else [];
               tenantLoading := false |}))
         (fun _ => setTenantState (with_tenantLoading false))
   | _, _ =>
       setTenantState (fun _ =>
         {| currentTenant := None; availableTenants := []; tenantLoading := false |})
   end)%eff.

Definition switchTenant (tenantId : string) : Eff unit :=
  (a <- useAuth;;
   state <- useTenant;;
   match user a with
   | Some u =>
       if bool_decide (User_role u ≠ super_admin)
       then throw (mkError "Only super admins can switch tenants")
       else
         match find_tenant tenantId (availableTenants state) with
         | None => throw (mkError "Tenant not found")
         | Some t =>
             setItem TENANT_STORAGE_KEY tenantId;;
             setTenantState (with_currentTenant (Some t))
         end
   | None => throw (mkError "Only super admins can switch tenants")
   end)%eff.

Definition refreshTenants (api : TenantsApi) : Eff unit :=
  (tenants <- await (api_getAll api);;
   setTenantState (with_availableTenants tenants))%eff.

(** ** Access guard ([components/guards/ProtectedRoute.tsx]) *)

(** What the component returns: the loading view, [<Navigate to=... state={{
    from }} replace />], [<UnauthorizedFallback />], or its children. *)
Inductive Rendered : Type :=
  | LoadingView
  | Navigate (to : string) (from : string)
  | UnauthorizedFallback
  | Children.

#[global] Instance Rendered_eq_dec : EqDecision Rendered.
Proof. solve_decision. Defined.

(** [required] is the prop [requiredRoles?]: [None] when it is not passed.
    An array, also the empty one, is truthy. *)
Definition ProtectedRoute (required : option (list UserRole))
    (a : AuthState) (t : TenantState) (pathname : string) : Rendered :=
  if authLoading a || tenantLoading t then LoadingView
  else
    match isAuthenticated a, user a with
    | true, Some u =>
        if match required with
           | Some roles => negb (includes roles (User_role u))
           | None => false
           end
        then UnauthorizedFallback
        else if negb (canAccessRoute (User_role u) pathname)
        then UnauthorizedFallback
        else Children
    | _, _ => Navigate "/login" pathname
    end.

(** ** A reference [JSON] for running the session code

    The fragment of JSON that [JSON.stringify] produces on a [User]: one
    object whose members are string literals, with the two escapes that
    printable text needs. It instantiates [JSON_stringify] and [JSON_parse]
    where a property is evaluated on concrete data. A text outside the
    fragment does not parse here, also where the platform's [JSON.parse]
    would return a value that is no [User]. *)
Module RefJSON.

Definition dquote : ascii := ascii_of_nat 34.
Definition bslash : ascii := ascii_of_nat 92.

Fixpoint escape (s : string) : string :=
  match s with
  | EmptyString => EmptyString
  | String c s' =>
      if bool_decide (c = dquote) || bool_decide (c = bslash)
      then String bslash (String c (escape s'))
      else String c (escape s')
  end.

Definition quoted (s : string) : string :=
  String dquote (escape s +:+ String dquote EmptyString).

Definition member_text (key value : string) : string :=
  quoted key +:+ ":" +:+ quoted value.

(** An absent optional property is left out, as [JSON.stringify] leaves
    out [undefined]. *)
Definition optional_member (key : string) (value : option string) : list string :=
  match value with
  | Some v => [member_text key v]
  | None => []
  end.

Fixpoint join (sep : string) (parts : list string) : string :=
  match parts with
  | [] => ""
  | [p] => p
  | p :: rest => p +:+ sep +:+ join sep rest
  end.

Definition stringify (u : User) : string :=
  "{" +:+
  join ","
    ([ member_text "id" (User_id u);
       member_text "email" (User_email u);
       member_text "name" (User_name u);
       member_text "role" (UserRole_literal (User_role u));
       member_text "tenantId" (User_tenantId u) ]
     ++ optional_member "avatarUrl" (User_avatarUrl u)
     ++ [ member_text "createdAt" (User_createdAt u) ]
     ++ optional_member "lastLoginAt" (User_lastLoginAt u)
     ++ [ member_text "status" (UserStatus_literal (User_status u)) ])
  +:+ "}".

(** The characters of a string literal after its opening quote, and the
    text after its closing quote. *)
Fixpoint read_chars (s : string) : option (string * string) :=
  match s with
  | EmptyString => None
  | String c s' =>
      if bool_decide (c = dquote) then Some (EmptyString, s')
      else if bool_decide (c = bslash) then
        match s' with
        | String c' s'' =>
            if bool_decide (c' = dquote) || bool_decide (c' = bslash)
            then match read_chars s'' with
                 | Some (v, rest) => Some (String c' v, rest)
                 | None => None
                 end
            else None
        | EmptyString => None
        end
      else match read_chars s' with
           | Some (v, rest) => Some (String c v, rest)
           | None => None
           end
  end.

Definition read_string (s : string) : option (string * string) :=
  match s with
  | String c s' => if bool_decide (c = dquote) then read_chars s' else None
  | EmptyString => None
  end.

(** The members of an object after its opening brace; [fuel] bounds their
    number. *)
Fixpoint read_members (fuel : nat) (s : string) : option (list (string * string)) :=
  match fuel with
  | O => None
  | S fuel' =>
      match read_string s with
      | Some (k, String ":" s1) =>
          match read_string s1 with
          | Some (v, String "," s2) =>
              match read_members fuel' s2 with
              | Some rest => Some ((k, v) :: rest)
              | None => None
              end
          | Some (v, String "}" EmptyString) => Some [(k, v)]
          | _ => None
          end
      | _ => None
      end
  end.

Definition read_object (s : string) : option (list (string * string)) :=
  match s with
  | String "{" s' => read_members (String.length s') s'
  | _ => None
  end.

Fixpoint property (key : string) (members : list (string * string)) : option string :=
  match members with
  | [] => None
  | (k, v) :: rest => if bool_decide (k = key) then Some v else property key rest
  end.

Definition UserRole_of_literal (s : string) : option UserRole :=
  if bool_decide (s = "super_admin") then Some super_admin
  else if bool_decide (s = "org_admin") then Some org_admin
  else if bool_decide (s = "member") then Some member
  else None.

Definition UserStatus_of_literal (s : string) : option UserStatus :=
  if bool_decide (s = "active") then Some active
  else if bool_decide (s = "inactive") then Some inactive
  else if bool_decide (s = "pending") then Some pending
  else None.

Definition parse (text : string) : option User :=
  members ← read_object text;
  uid ← property "id" members;
  email ← property "email" members;
  uname ← property "name" members;
  role ← property "role" members ≫= UserRole_of_literal;
  tenantId ← property "tenantId" members;
  createdAt ← property "createdAt" members;
  status ← property "status" members ≫= UserStatus_of_literal;
  Some {| User_id := uid;
          User_email := email;
          User_name := uname;
          User_role := role;
          User_tenantId := tenantId;
          User_avatarUrl := property "avatarUrl" members;
          User_createdAt := createdAt;
          User_lastLoginAt := property "lastLoginAt" members;
          User_status := status |}.

(** The text of the members of an object, without its braces, and the
    members [stringify] prints, in its order: what [read_object] reads back. *)
Definition members_text (members : list (string * string)) : string :=
  join "," (map (fun kv => member_text (fst kv) (snd kv)) members).

Definition User_members (u : User) : list (string * string) :=
  [ ("id", User_id u);
    ("email", User_email u);
    ("name", User_name u);
    ("role", UserRole_literal (User_role u));
    ("tenantId", User_tenantId u) ]
  ++ match User_avatarUrl u with Some v => [("avatarUrl", v)] | None => [] end
  ++ [ ("createdAt", User_createdAt u) ]
  ++ match User_lastLoginAt u with Some v => [("lastLoginAt", v)] | None => [] end
  ++ [ ("status", UserStatus_literal (User_status u)) ].

End RefJSON.

(** ** The access decision, in the words of the specification

    [evaluateAccess] relates a snapshot of the guard's inputs to the view
    that the specification's ordered rules select: AWAIT is the loading
    view, DENY with redirect is the navigation to the sign-in page, DENY
    (unauthorized) is the fallback, ALLOW is the protected content. *)

Definition session_loading (a : AuthState) (t : TenantState) : Prop :=
  authLoading a = true ∨ tenantLoading t = true.

(** The session has no identity: it is not authenticated, or holds no user. *)
Definition anonymous (a : AuthState) : Prop :=
  isAuthenticated a = false ∨ user a = None.

Definition identity (a : AuthState) (u : User) : Prop :=
  isAuthenticated a = true ∧ user a = Some u.

Inductive evaluateAccess (required : option (list UserRole))
    (a : AuthState) (t : TenantState) (pathname : string) : Rendered -> Prop :=
  | access_await :
      session_loading a t ->
      evaluateAccess required a t pathname LoadingView
  | access_sign_in :
      ¬ session_loading a t ->
      anonymous a ->
      evaluateAccess required a t pathname (Navigate "/login" pathname)
  | access_role_denied u roles :
      ¬ session_loading a t ->
      identity a u ->
      required = Some roles ->
      User_role u ∉ roles ->
      evaluateAccess required a t pathname UnauthorizedFallback
  | access_route_denied u :
      ¬ session_loading a t ->
      identity a u ->
      (∀ roles, required = Some roles -> User_role u ∈ roles) ->
      canAccessRoute (User_role u) pathname = false ->
      evaluateAccess required a t pathname UnauthorizedFallback
  | access_allow u :
      ¬ session_loading a t ->
      identity a u ->
      (∀ roles, required = Some roles -> User_role u ∈ roles) ->
      canAccessRoute (User_role u) pathname = true ->
      evaluateAccess required a t pathname Children.

(** ** Names the specification uses for the code's outcomes *)

(** The two errors of [switchTenant], by the names of the error taxonomy. *)
Definition Unauthorized : Error := mkError "Only super admins can switch tenants".
Definition TenantNotFound : Error := mkError "Tenant not found".

(** The anonymous session: no user, not authenticated, not loading. *)
Definition anonymousAuthState : AuthState :=
  {| user := None; isAuthenticated := false; authLoading := false |}.

(** The two flags of a session agree: it is authenticated exactly when
    it holds a user. *)
Definition session_consistent (a : AuthState) : Prop :=
  isAuthenticated a = true ↔ is_Some (user a).

(** The state a computation leaves. *)
Definition exec {A : Type} (m : Eff A) (w : World) : World := snd (m w).

(** The browser at process start: an empty store, both providers in the
    state their [useState] starts from. *)
Definition initialWorld : World :=
  {| localStorage := ∅; auth := initialAuthState; tenant := initialTenantState |}.

(** A page reload: the store stays, both providers start again. *)
Definition reload (w : World) : World :=
  {| localStorage := localStorage w; auth := initialAuthState; tenant := initialTenantState |}.

(** "The catalog entry whose id equals [tid]": [t] is in the catalog with
    that id, and no entry before it has the id. *)
Definition entry_with_id (tid : string) (catalog : list Tenant) (t : Tenant) : Prop :=
  ∃ before after,
    catalog = before ++ t :: after ∧
    Tenant_id t = tid ∧
    ∀ x, x ∈ before -> Tenant_id x ≠ tid.

(** "No such entry exists", "the id no longer exists in the catalog". *)
Definition no_entry_with_id (tid : string) (catalog : list Tenant) : Prop :=
  ∀ t, t ∈ catalog -> Tenant_id t ≠ tid.

(** The tenant that the specification's refresh rule selects: the current
    one while the refreshed catalog still has it, else the first entry. *)
Definition current_or_first (current : option Tenant) (catalog : list Tenant)
    : option Tenant :=
  match current with
  | Some t => if bool_decide (t ∈ catalog) then Some t else head catalog
  | None => head catalog
  end.

(** ** Scenarios: states reached by running the code on the mock data *)

Definition sample_clock : Clock :=
  {| Date_now := 1735000000000;
     createdAt_iso := "2024-12-24T00:26:40.000Z";
     lastLoginAt_iso := "2024-12-24T00:26:40.000Z" |}.

(** Process start, then sign-in through the mock provider. *)
Definition after_login (role : UserRole) (tenantId : string) : World :=
  exec (login RefJSON.stringify (authApi sample_clock) role tenantId)
    (exec (restoreAuth RefJSON.parse) initialWorld).

(** ... and the tenant effect that the new identity triggers. *)
Definition signed_in (role : UserRole) (tenantId : string) : World :=
  exec (loadTenants tenantsApi) (after_login role tenantId).

(** A super admin signs in, switches to the second mock tenant, and
    reloads the page; the session is restored, the tenant effect has yet
    to run. *)
Definition reloaded_on_second : World :=
  exec (restoreAuth RefJSON.parse)
    (reload (exec (switchTenant "tenant-2") (signed_in super_admin "tenant-1"))).

(** A Data Service from whose catalog the first mock tenant is gone. *)
Definition tenantsApi_without_first : TenantsApi :=
  {| api_getAll := Resolved (tail mockTenants) |}.

(** An Identity Provider whose sign-out notification fails. *)
Definition authApi_failing_logout : AuthApi :=
  {| api_login := authApi_login sample_clock;
     api_logout := Rejected (mkError "Network error") |}.

(** A store whose session entry is the empty string. *)
Definition empty_session_entry : World :=
  with_localStorage (<[AUTH_STORAGE_KEY := ""]> ∅) initialWorld.

(** A store whose session entry is cut short. *)
Definition truncated_session_entry : World :=
  with_localStorage (<[AUTH_STORAGE_KEY := "{"]> ∅) initialWorld.

(** * The rest of the role policy, the mock API and the pages *)

(** ** Role policy: [hasPermission] ([lib/permissions.ts]) *)

(** [keyof Permission]. *)
Inductive PermissionKey : Type :=
  | key_canViewAllTenants
  | key_canSwitchTenants
  | key_canManageUsers
  | key_canEditSettings
  | key_canViewAnalytics.

(** [permissions[key]]. *)
Definition Permission_get (p : Permission) (key : PermissionKey) : bool :=
  match key with
  | key_canViewAllTenants => canViewAllTenants p
  | key_canSwitchTenants => canSwitchTenants p
  | key_canManageUsers => canManageUsers p
  | key_canEditSettings => canEditSettings p
  | key_canViewAnalytics => canViewAnalytics p
  end.

Definition hasPermission (role : UserRole) (permission : PermissionKey) : bool :=
  Permission_get (getPermissions role) permission.

(** The order of the three roles by privilege, for stating that privileges
    grow along it. *)
Definition role_rank (role : UserRole) : nat :=
  match role with
  | member => 0
  | org_admin => 1
  | super_admin => 2
  end.

(** ** Mock API layer: tenants by id, users and statistics ([lib/mock-api.ts])

    Page numbers, page sizes and counts are JavaScript numbers; they are
    integers here, as every caller passes and every array length is. On
    integers the arithmetic below is the one the code does. *)

Local Open Scope Z_scope.

(** A number that a division of integers and [Math.ceil] can give. *)
Inductive JSNumber : Type :=
  | Int (z : Z)
  | Infinity
  | NaN.

(** [Math.ceil(n / d)] for an array length [n] and an integer [d]: [n / 0]
    is [Infinity], or [NaN] when [n] is 0 too. *)
Definition Math_ceil_quotient (n : nat) (d : Z) : JSNumber :=
  if bool_decide (d = 0)
  then (if bool_decide (n = 0%nat) then NaN else Infinity)
  else Int (- ((- Z.of_nat n) / d)).

(** How [Array.prototype.slice] reads an index: a negative one counts from
    the end, and both ends are clamped to the array. *)
Definition relative_index (len k : Z) : Z :=
  if bool_decide (k < 0) then Z.max (len + k) 0 else Z.min k len.

(** [l.slice(start, end)]. *)
Definition Array_slice {A : Type} (l : list A) (start final : Z) : list A :=
  let len := Z.of_nat (length l) in
  let k := relative_index len start in
  take (Z.to_nat (relative_index len final - k)) (drop (Z.to_nat k) l).

(** [interface PaginatedResponse<T>]. *)
Record PaginatedResponse (T : Type) : Type := mkPaginatedResponse {
  data : list T;
  total : Z;
  page : Z;
  pageSize : Z;
  totalPages : JSNumber;
}.
Arguments mkPaginatedResponse {T} _ _ _ _ _.
Arguments data {T} _.
Arguments total {T} _.
Arguments page {T} _.
Arguments pageSize {T} _.
Arguments totalPages {T} _.

(** [interface DashboardStats]. *)
Record DashboardStats : Type := mkDashboardStats {
  totalUsers : Z;
  activeUsers : Z;
  pendingInvites : Z;
  storageUsed : Z;
  storageLimit : Z;
}.

(** [array.length] as a number. *)
Definition Array_length {A : Type} (l : list A) : Z := Z.of_nat (length l).

(** [tenantsApi.getById]. *)
Definition tenantsApi_getById (tid : string) : option Tenant :=
  or_else (find_tenant tid mockTenants) None.

(** [usersApi.getByTenant]; the defaults [page = 1] and [pageSize = 10] are
    what a caller who leaves them out passes. *)
Definition usersApi_getByTenant (tenantId : string) (page pageSize : Z)
    : PaginatedResponse User :=
  let filteredUsers :=
    List.filter (fun u => bool_decide (User_tenantId u = tenantId)) mockUsers in
  let start := (page - 1) * pageSize in
  let paginatedUsers := Array_slice filteredUsers start (start + pageSize) in
  {| data := paginatedUsers;
     total := Array_length filteredUsers;
     page := page;
     pageSize := pageSize;
     totalPages := Math_ceil_quotient (length filteredUsers) pageSize |}.

(** [usersApi.getAll]. *)
Definition usersApi_getAll (page pageSize : Z) : PaginatedResponse User :=
  let start := (page - 1) * pageSize in
  let paginatedUsers := Array_slice mockUsers start (start + pageSize) in
  {| data := paginatedUsers;
     total := Array_length mockUsers;
     page := page;
     pageSize := pageSize;
     totalPages := Math_ceil_quotient (length mockUsers) pageSize |}.

(** [{ ...user, status }]. *)
Definition with_status (status : UserStatus) (u : User) : User :=
  {| User_id := User_id u;
     User_email := User_email u;
     User_name := User_name u;
     User_role := User_role u;
     User_tenantId := User_tenantId u;
     User_avatarUrl := User_avatarUrl u;
     User_createdAt := User_createdAt u;
     User_lastLoginAt := User_lastLoginAt u;
     User_status := status |}.

(** [usersApi.updateStatus]. *)
Definition usersApi_updateStatus (userId : string) (status : UserStatus) : Outcome User :=
  match List.find (fun u => bool_decide (User_id u = userId)) mockUsers with
  | None => Rejected (mkError "User not found")
  | Some u => Resolved (with_status status u)
  end.

(** [users.filter(u => u.status === s).length]. *)
Definition count_status (s : UserStatus) (users : list User) : Z :=
  Array_length (List.filter (fun u => bool_decide (User_status u = s)) users).

(** [dashboardApi.getStats]. [random50] is the value of
    [Math.floor(Math.random() * 50)], an integer from 0 to 49. *)
Definition dashboardApi_getStats (random50 : Z) (tenantId : string) : DashboardStats :=
  let tenantUsers :=
    List.filter (fun u => bool_decide (User_tenantId u = tenantId)) mockUsers in
  {| totalUsers := Array_length tenantUsers;
     activeUsers := count_status active tenantUsers;
     pendingInvites := count_status pending tenantUsers;
     storageUsed := random50 + 10;
     storageLimit := 100 |}.

(** [dashboardApi.getGlobalStats]. [random200] is the value of
    [Math.floor(Math.random() * 200)], an integer from 0 to 199. *)
Definition dashboardApi_getGlobalStats (random200 : Z) : DashboardStats :=
  {| totalUsers := Array_length mockUsers;
     activeUsers := count_status active mockUsers;
     pendingInvites := count_status pending mockUsers;
     storageUsed := random200 + 50;
     storageLimit := 500 |}.

(** What it is for a response to be page [page] of [l] in pages of
    [pageSize]: its rows are that window of [l], and the page count [tp] is
    the least that covers [l]. *)
Definition is_page_of (l : list User) (page pageSize : Z)
    (r : PaginatedResponse User) : Prop :=
  data r = take (Z.to_nat pageSize) (drop (Z.to_nat ((page - 1) * pageSize)) l) ∧
  total r = Array_length l ∧
  ∃ tp, totalPages r = Int tp ∧
        (tp - 1) * pageSize < total r <= tp * pageSize ∧
        (data r ≠ [] ↔ page <= tp).

(** The users of a tenant, in the order of [mockUsers]. *)
Definition users_of_tenant (tenantId : string) : list User :=
  List.filter (fun u => bool_decide (User_tenantId u = tenantId)) mockUsers.

(** The sum of a field of the tenant statistics over a tenant catalog. *)
Definition sum_over_tenants (field : DashboardStats -> Z) (random50 : Z)
    (tenants : list Tenant) : Z :=
  foldr Z.add 0
    (map (fun t => field (dashboardApi_getStats random50 (Tenant_id t))) tenants).

Local Close Scope Z_scope.

(** ** Pages that load data ([pages/Users.tsx], [pages/Dashboard.tsx]) *)

(** [user?.role === 'super_admin']: false without a user. *)
Definition is_super_admin (u : option User) : bool :=
  match u with
  | Some u => bool_decide (User_role u = super_admin)
  | None => false
  end.

(** [const pageSize = 10] of the Users page. *)
Definition Users_pageSize : Z := 10%Z.

(** [loadUsers] of the Users page: what it passes to [setUsersData], or
    [None] when it returns at once for want of a current tenant. *)
Definition Users_loadUsers (currentUser : option User) (currentTenant : option Tenant)
    (page : Z) : option (PaginatedResponse User) :=
  match currentTenant with
  | None => None
  | Some ct =>
      Some (if is_super_admin currentUser
            then usersApi_getAll page Users_pageSize
            else usersApi_getByTenant (Tenant_id ct) page Users_pageSize)
  end.

(** [loadStats] of the Dashboard page: what it passes to [setStats]. *)
Definition Dashboard_loadStats (user : option User) (currentTenant : option Tenant)
    (random50 random200 : Z) : option DashboardStats :=
  match currentTenant with
  | None => None
  | Some ct =>
      Some (if is_super_admin user
            then dashboardApi_getGlobalStats random200
            else dashboardApi_getStats random50 (Tenant_id ct))
  end.

(** ** Routes ([App.tsx])

    Which [<Route>] matches a location is the router's decision and an
    input here; [pathname] is [location.pathname], which both guards of a
    nested route read. *)

Inductive Page : Type :=
  | page_Index
  | page_Login
  | page_Dashboard
  | page_Users
  | page_Settings
  | page_NotFound.

Inductive MatchedRoute : Type :=
  | route_root
  | route_login
  | route_dashboard_index
  | route_dashboard_users
  | route_dashboard_settings
  | route_any.

(** What is on screen: a page, the view of a guard that did not let
    through, or the dashboard layout around its outlet. *)
Inductive Screen : Type :=
  | ShowPage (p : Page)
  | ShowGuard (r : Rendered)
  | ShowLayout (outlet : Screen).

(** [<ProtectedRoute requiredRoles=...>children</ProtectedRoute>]. *)
Definition guarded (required : option (list UserRole)) (a : AuthState)
    (t : TenantState) (pathname : string) (children : Screen) : Screen :=
  match ProtectedRoute required a t pathname with
  | Children => children
  | r => ShowGuard r
  end.

Definition App (matched : MatchedRoute) (a : AuthState) (t : TenantState)
    (pathname : string) : Screen :=
  match matched with
  | route_root => ShowPage page_Index
  | route_login => ShowPage page_Login
  | route_dashboard_index =>
      guarded None a t pathname (ShowLayout (ShowPage page_Dashboard))
  | route_dashboard_users =>
      guarded None a t pathname
        (ShowLayout
           (guarded (Some [super_admin; org_admin]) a t pathname (ShowPage page_Users)))
  | route_dashboard_settings =>
      guarded None a t pathname
        (ShowLayout
           (guarded (Some [super_admin; org_admin]) a t pathname (ShowPage page_Settings)))
  | route_any => ShowPage page_NotFound
  end.

(** ** Sidebar ([components/layout/DashboardSidebar.tsx])

    The parts of the sidebar that are decided by the session and the tenant
    scope; the initial in the avatar is left out. *)

Record SidebarView : Type := mkSidebarView {
  sidebar_navItems : list NavItem;
  sidebar_canSwitchTenants : bool;
  sidebar_tenantLabel : string;
  sidebar_tenantMenu : list Tenant;
  sidebar_roleName : string;
}.

(** [currentTenant?.name || fallback]. *)
Definition tenant_name_or (current : option Tenant) (fallback : string) : string :=
  match current with
  | Some ct => if truthy (Tenant_name ct) then Tenant_name ct else fallback
  | None => fallback
  end.

(** [None] is [return null]. The menu of tenants is rendered only in the
    switcher, so it is empty when the switcher is not shown. *)
Definition DashboardSidebar (a : AuthState) (t : TenantState) : option SidebarView :=
  match user a with
  | None => None
  | Some u =>
      let navItems := getNavigationForRole (User_role u) in
      let canSwitchTenants := bool_decide (User_role u = super_admin) in
      Some {| sidebar_navItems := navItems;
              sidebar_canSwitchTenants := canSwitchTenants;
              sidebar_tenantLabel :=
                if canSwitchTenants
                then tenant_name_or (currentTenant t) "Select Tenant"
                else tenant_name_or (currentTenant t) "Loading...";
              sidebar_tenantMenu := if canSwitchTenants then availableTenants t else [];
              sidebar_roleName := getRoleDisplayName (User_role u) |}
  end.

(** ** Sign-in page ([pages/Login.tsx]) *)

(** What a handler does to the screen: a toast, or a navigation. *)
Inductive UiEvent : Type :=
  | ui_toast (title : string) (description : option string) (destructive : bool)
  | ui_navigate (to : string).

(** The [useState] cells of the page. *)
Record LoginState : Type := mkLoginState {
  tenants : list Tenant;
  selectedRole : UserRole;
  selectedTenant : string;
  isLoading : bool;
  tenantsLoading : bool;
}.

Definition Login_initialState : LoginState :=
  {| tenants := [];
     selectedRole := org_admin;
     selectedTenant := "";
     isLoading := false;
     tenantsLoading := true |}.

(** The effect that loads the tenants on mount. *)
Definition Login_loadTenants (api : TenantsApi) (s : LoginState) : LoginState :=
  match api_getAll api with
  | Resolved data =>
      {| tenants := data;
         selectedRole := selectedRole s;
         selectedTenant :=
           match data with
           | first :: _ => Tenant_id first
           | [] => selectedTenant s
           end;
         isLoading := isLoading s;
         tenantsLoading := false |}
  | Rejected _ =>
      {| tenants := tenants s;
         selectedRole := selectedRole s;
         selectedTenant := selectedTenant s;
         isLoading := isLoading s;
         tenantsLoading := false |}
  end.

(** [{ ...s, isLoading: b }] of the page's cells. *)
Definition with_isLoading (b : bool) (s : LoginState) : LoginState :=
  {| tenants := tenants s;
     selectedRole := selectedRole s;
     selectedTenant := selectedTenant s;
     isLoading := b;
     tenantsLoading := tenantsLoading s |}.

Section LoginPage.

Variable JSON_stringify : User -> string.

(** [handleLogin]: the events it causes, in order, the page's cells and
    the world when it returns. *)
Definition handleLogin (api : AuthApi) (s : LoginState) (w : World)
    : list UiEvent * LoginState * World :=
  if negb (truthy (selectedTenant s))
  then ([ui_toast "Please select a tenant" None true], s, w)
  else
    match login JSON_stringify api (selectedRole s) (selectedTenant s) w with
    | (Resolved _, w') =>
        ([ui_toast "Welcome back!"
            (Some ("Logged in as " +:+ getRoleDisplayName (selectedRole s))) false;
          ui_navigate "/dashboard"],
         with_isLoading false s, w')
    | (Rejected _, w') =>
        ([ui_toast "Login failed" (Some "Please try again") true],
         with_isLoading false s, w')
    end.

End LoginPage.

(** ** Runs of the two providers

    What a user and the effects can make the providers do, one operation
    after the other, from process start. The tenant effect is an action of
    its own here, so a run may also interleave it in ways the effect
    scheduler never does. *)

Inductive Action : Type :=
  | act_login (api : AuthApi) (role : UserRole) (tenantId : string)
  | act_logout (api : AuthApi)
  | act_loadTenants (api : TenantsApi)
  | act_switchTenant (tenantId : string)
  | act_refreshTenants (api : TenantsApi).

(** The actions of the tenant scope that a signed-in user can trigger at
    will: the switcher and a refresh. *)
Definition tenant_action (a : Action) : Prop :=
  match a with
  | act_switchTenant _ | act_refreshTenants _ => True
  | _ => False
  end.

(** An Identity Provider that rejects every sign-in. *)
Definition authApi_rejecting : AuthApi :=
  {| api_login := fun _ _ => Rejected (mkError "Invalid credentials");
     api_logout := Resolved tt |}.

(** A Data Service whose fetch fails. *)
Definition tenantsApi_failing : TenantsApi :=
  {| api_getAll := Rejected (mkError "Network error") |}.

Section Runs.

Variable JSON_stringify : User -> string.
Variable JSON_parse : string -> option User.

Definition perform (a : Action) : Eff unit :=
  match a with
  | act_login api role tenantId => login JSON_stringify api role tenantId
  | act_logout api => logout api
  | act_loadTenants api => loadTenants api
  | act_switchTenant tenantId => switchTenant tenantId
  | act_refreshTenants api => refreshTenants api
  end.

(** A thrown error ends the action, not the run: the caller of an
    operation goes on with the state the operation left. *)
Definition run (actions : list Action) (w : World) : World :=
  fold_left (fun w a => exec (perform a) w) actions w.

(** Process start over a store: both providers mount, and the restore
    effect runs. *)
Definition process_start (store : gmap string string) : World :=
  exec (restoreAuth JSON_parse)
    {| localStorage := store; auth := initialAuthState; tenant := initialTenantState |}.

(** The session that the restore effect builds from a store entry. *)
Definition restored (entry : option string) : AuthState :=
  match entry with
  | Some text =>
      if truthy text then
        match JSON_parse text with
        | Some u => {| user := Some u; isAuthenticated := true; authLoading := false |}
        | None => anonymousAuthState
        end
      else anonymousAuthState
  | None => anonymousAuthState
  end.

(** The live session is the one a reload would restore from the store. *)
Definition reload_stable (w : World) : Prop :=
  auth w = restored (localStorage w !! AUTH_STORAGE_KEY).

(** The session entry of a store, if it has one, is a text that [login]
    wrote: the text of some user. *)
Definition session_entry_from_login (store : gmap string string) : Prop :=
  store !! AUTH_STORAGE_KEY = None ∨
  ∃ u, store !! AUTH_STORAGE_KEY = Some (JSON_stringify u).

End Runs.

(** * Properties *)

(** ** Lists searched by a key *)

Section FindByKey.

Context {A K : Type} `{EqDecision K} (key : A -> K).

Lemma find_key_None (k : K) (l : list A) :
  List.find (fun x => bool_decide (key x = k)) l = None ↔
  ∀ x, x ∈ l -> key x ≠ k.
Proof.
  induction l as [|y l IH]; simpl.
  - split; [intros _ x Hx; inversion Hx | done].
  - case_bool_decide as Hy.
    + split; [done | intros Hall; exfalso; apply (Hall y); [left | done]].
    + rewrite IH. split.
      * intros Hall x Hx. apply elem_of_cons in Hx as [-> | Hx]; auto.
      * intros Hall x Hx. apply Hall. by right.
Qed.

(** [find] returns the first element with the key. *)
Lemma find_key_Some (k : K) (l : list A) (y : A) :
  List.find (fun x => bool_decide (key x = k)) l = Some y ↔
  ∃ pre post, l = pre ++ y :: post ∧ key y = k ∧ ∀ x, x ∈ pre -> key x ≠ k.
Proof.
  induction l as [|z l IH]; simpl.
  - split; [done | intros (pre & post & Hl & _); by destruct pre].
  - case_bool_decide as Hz.
    + split.
      * intros [= ->]. exists [], l. split_and!; [done | done |].
        intros x Hx; inversion Hx.
      * intros (pre & post & Hl & Hy & Hpre). destruct pre as [|p pre].
        -- simpl in Hl. by injection Hl as -> _.
        -- simpl in Hl. injection Hl as -> _.
           exfalso. apply (Hpre p); [left | done].
    + rewrite IH. split.
      * intros (pre & post & -> & Hy & Hpre). exists (z :: pre), post.
        split_and!; [done | done |].
        intros x Hx. apply elem_of_cons in Hx as [-> | Hx]; auto.
      * intros (pre & post & Hl & Hy & Hpre). destruct pre as [|p pre].
        -- simpl in Hl. injection Hl as -> _. done.
        -- simpl in Hl. injection Hl as -> ->. exists pre, post.
           split_and!; [done | done |].
           intros x Hx. apply Hpre. by right.
Qed.

Lemma find_key_is_Some (k : K) (l : list A) :
  (∃ x, x ∈ l ∧ key x = k) ->
  ∃ y, List.find (fun x => bool_decide (key x = k)) l = Some y.
Proof.
  intros (x & Hx & Hk).
  destruct (List.find _ l) as [y|] eqn:Hfind; [by exists y |].
  exfalso. by apply (proj1 (find_key_None k l) Hfind x).
Qed.

End FindByKey.

(** ** The reference [JSON] parses what it prints *)

Module RefJSONFacts.
Import RefJSON.

Lemma append_nil (b : string) : "" +:+ b = b.
Proof. reflexivity. Qed.

Lemma append_cons (x : ascii) (a b : string) : String x a +:+ b = String x (a +:+ b).
Proof. reflexivity. Qed.

Lemma append_assoc (a b c : string) : (a +:+ b) +:+ c = a +:+ (b +:+ c).
Proof.
  induction a as [|x a IH]; [done |].
  by rewrite !append_cons, IH.
Qed.

Lemma length_append (a b : string) :
  String.length (a +:+ b) = (String.length a + String.length b)%nat.
Proof.
  induction a as [|x a IH]; [done |].
  rewrite append_cons. simpl. by rewrite IH.
Qed.

(** Appends pushed to the right, and through the characters of a literal. *)
Ltac append_normal := rewrite ?append_assoc, ?append_cons, ?append_nil.

Lemma read_chars_escape (s rest : string) :
  read_chars (escape s +:+ String dquote rest) = Some (s, rest).
Proof.
  induction s as [|c s IH]; simpl.
  - done.
  - destruct (bool_decide (c = dquote) || bool_decide (c = bslash)) eqn:Hc;
      rewrite !append_cons; simpl.
    + by rewrite Hc, IH.
    + apply orb_false_iff in Hc as [Hq Hb]. by rewrite Hq, Hb, IH.
Qed.

Lemma read_string_quoted (s rest : string) :
  read_string (quoted s +:+ rest) = Some (s, rest).
Proof.
  unfold quoted. simpl. append_normal. apply read_chars_escape.
Qed.

Lemma members_text_one (k v : string) :
  members_text [(k, v)] = member_text k v.
Proof. reflexivity. Qed.

Lemma members_text_more (k v : string) (kv : string * string)
    (members : list (string * string)) :
  members_text ((k, v) :: kv :: members)
  = member_text k v +:+ "," +:+ members_text (kv :: members).
Proof. reflexivity. Qed.

Lemma read_members_text (members : list (string * string)) (fuel : nat) :
  members ≠ [] ->
  (length members <= fuel)%nat ->
  read_members fuel (members_text members +:+ "}") = Some members.
Proof.
  revert fuel. induction members as [|[k v] members IH]; [done |].
  intros fuel _ Hfuel. destruct fuel as [|fuel]; [simpl in Hfuel; lia |].
  destruct members as [|kv members].
  - rewrite members_text_one. unfold member_text. append_normal.
    cbn [read_members]. rewrite read_string_quoted.
    by rewrite read_string_quoted.
  - rewrite members_text_more. unfold member_text. append_normal.
    cbn [read_members]. rewrite read_string_quoted.
    rewrite read_string_quoted.
    rewrite IH; [done | done | simpl in *; lia].
Qed.

Lemma length_members_text (members : list (string * string)) (rest : string) :
  (length members <= String.length (members_text members +:+ rest))%nat.
Proof.
  rewrite length_append.
  enough (length members <= String.length (members_text members))%nat by lia.
  induction members as [|[k v] members IH]; [simpl; lia |].
  destruct members as [|kv members].
  - rewrite members_text_one. unfold member_text, quoted.
    rewrite append_cons. simpl. lia.
  - rewrite members_text_more, !length_append.
    change (String.length ",") with 1%nat. cbn [length] in *. lia.
Qed.

Lemma stringify_members (u : User) :
  stringify u = "{" +:+ members_text (User_members u) +:+ "}".
Proof.
  unfold stringify, User_members, members_text.
  by destruct (User_avatarUrl u), (User_lastLoginAt u).
Qed.

Lemma read_object_stringify (u : User) :
  read_object (stringify u) = Some (User_members u).
Proof.
  rewrite stringify_members, append_cons, append_nil. cbn [read_object].
  apply read_members_text.
  - unfold User_members. discriminate.
  - apply length_members_text.
Qed.

(** For every user, [parse] gives back what [stringify] printed. *)
Lemma parse_stringify (u : User) : parse (stringify u) = Some u.
Proof.
  unfold parse. rewrite read_object_stringify.
  destruct u as [uid email uname role tenantId avatar created lastLogin status].
  unfold User_members. cbn [User_id User_email User_name User_role User_tenantId
    User_avatarUrl User_createdAt User_lastLoginAt User_status].
  destruct role, status, avatar, lastLogin; reflexivity.
Qed.

(** The empty text does not parse. *)
Lemma parse_empty : parse "" = None.
Proof. reflexivity. Qed.

End RefJSONFacts.

(** ** Role policy *)

(** C5. For every role, a permission set that allows switching tenants
    also allows viewing all tenants. *)
Theorem getPermissions_switch_implies_view (role : UserRole) :
  canSwitchTenants (getPermissions role) = true ->
  canViewAllTenants (getPermissions role) = true.
Proof. destruct role; simpl; intros Hswitch; first [reflexivity | discriminate Hswitch]. Qed.

Lemma getPermissions_switch_implies_view_witness :
  canSwitchTenants (getPermissions super_admin) = true ∧
  canViewAllTenants (getPermissions super_admin) = true.
Proof.
  split; [reflexivity |].
  apply (getPermissions_switch_implies_view super_admin). reflexivity.
Defined.

(** The catalog lists each path once, so "the entry of a path" is one entry. *)
Lemma navigationItems_path_inj (i j : NavItem) :
  i ∈ navigationItems -> j ∈ navigationItems -> path i = path j -> i = j.
Proof.
  unfold navigationItems. rewrite !elem_of_cons, !elem_of_nil.
  intros [-> | [-> | [-> | []]]] [-> | [-> | [-> | []]]]; simpl; intros Hp;
    first [reflexivity | discriminate Hp].
Qed.

Lemma includes_true {A : Type} `{EqDecision A} (l : list A) (x : A) :
  includes l x = true ↔ x ∈ l.
Proof. unfold includes. by rewrite bool_decide_eq_true. Qed.

Lemma includes_false {A : Type} `{EqDecision A} (l : list A) (x : A) :
  includes l x = false ↔ x ∉ l.
Proof. unfold includes. by rewrite bool_decide_eq_false. Qed.

(** The navigation of a role is the catalog entries that require it. *)
Lemma getNavigationForRole_spec (role : UserRole) (item : NavItem) :
  item ∈ getNavigationForRole role ↔
  item ∈ navigationItems ∧ role ∈ requiredRoles item.
Proof.
  unfold getNavigationForRole.
  rewrite !list_elem_of_In, filter_In, includes_true.
  by rewrite !list_elem_of_In.
Qed.

(** C3. [canAccessRoute] looks the path up in the catalog by exact match:
    for the entry with that path it answers whether the role is one of the
    entry's required roles, and for a path with no entry it answers true.
    For "/dashboard/users" it is true exactly for super_admin and
    org_admin, and false for member. *)
Theorem canAccessRoute_catalog (role : UserRole) (p : string) :
  (∀ item, item ∈ navigationItems ∧ path item = p ->
     canAccessRoute role p = includes (requiredRoles item) role) ∧
  ((∀ item, item ∈ navigationItems -> path item ≠ p) ->
     canAccessRoute role p = true) ∧
  (canAccessRoute role "/dashboard/users" = true ↔
     role = super_admin ∨ role = org_admin) ∧
  canAccessRoute member "/dashboard/users" = false.
Proof.
  split_and!.
  - intros item [Hin Hpath]. unfold canAccessRoute.
    destruct (List.find _ navigationItems) as [found|] eqn:Hfind.
    + apply find_key_Some in Hfind as (pre & post & Hl & Hfound & _).
      assert (found ∈ navigationItems) as Hin'.
      { rewrite Hl. apply elem_of_app. right. left. }
      assert (found = item) as ->; [|done].
      apply navigationItems_path_inj; congruence.
    + exfalso. by apply (proj1 (find_key_None path p _) Hfind item).
  - intros Hnone. unfold canAccessRoute.
    by rewrite (proj2 (find_key_None path p navigationItems) Hnone).
  - destruct role; vm_compute; split; intros Hr;
      first [discriminate Hr | by left | by right | by destruct Hr as [Hr | Hr]; discriminate Hr | reflexivity].
  - reflexivity.
Qed.

Lemma canAccessRoute_catalog_witness :
  canAccessRoute member "/dashboard/settings" = false ∧
  canAccessRoute member "/dashboard/reports" = true.
Proof.
  destruct (canAccessRoute_catalog member "/dashboard/settings") as (Hentry & _).
  destruct (canAccessRoute_catalog member "/dashboard/reports") as (_ & Hopen & _).
  split.
  - rewrite (Hentry (mkNavItem "Settings" "/dashboard/settings" "Settings"
                       [super_admin; org_admin])); [reflexivity |].
    split; [| reflexivity].
    unfold navigationItems. do 2 right. left.
  - apply Hopen. unfold navigationItems. intros item.
    rewrite !elem_of_cons, elem_of_nil.
    intros [-> | [-> | [-> | []]]]; simpl; discriminate.
Defined.

(** ** Access guard *)

Lemma session_loading_orb (a : AuthState) (t : TenantState) :
  session_loading a t ↔ authLoading a || tenantLoading t = true.
Proof. unfold session_loading. by rewrite orb_true_iff. Qed.

Lemma anonymous_or_identity (a : AuthState) :
  anonymous a ∨ ∃ u, identity a u.
Proof.
  unfold anonymous, identity.
  destruct (isAuthenticated a); [| by left; left].
  destruct (user a) as [u|]; [right; by exists u | by left; right].
Qed.

Lemma anonymous_not_identity (a : AuthState) (u : User) :
  anonymous a -> identity a u -> False.
Proof. intros [Hanon | Hanon] [Hauth Huser]; congruence. Qed.

(** The guard's answer follows the ordered rules. *)
Lemma ProtectedRoute_sound required a t pathname :
  evaluateAccess required a t pathname (ProtectedRoute required a t pathname).
Proof.
  unfold ProtectedRoute.
  destruct (authLoading a || tenantLoading t) eqn:Hload.
  { apply access_await. by apply session_loading_orb. }
  assert (¬ session_loading a t) as Hready.
  { rewrite session_loading_orb. congruence. }
  destruct (isAuthenticated a) eqn:Hauth;
    [| apply access_sign_in; [done | by left]].
  destruct (user a) as [u|] eqn:Huser;
    [| apply access_sign_in; [done | by right]].
  assert (identity a u) as Hid by done.
  destruct required as [roles|].
  - destruct (includes roles (User_role u)) eqn:Hrole; simpl.
    + apply includes_true in Hrole.
      destruct (canAccessRoute (User_role u) pathname) eqn:Hroute; simpl.
      * eapply access_allow; [done | done | by intros ? [= <-] | done].
      * eapply access_route_denied; [done | done | by intros ? [= <-] | done].
    + apply includes_false in Hrole. by eapply access_role_denied.
  - destruct (canAccessRoute (User_role u) pathname) eqn:Hroute; simpl.
    + by eapply access_allow.
    + by eapply access_route_denied.
Qed.

(** The ordered rules select one view. *)
Lemma evaluateAccess_functional required a t pathname r1 r2 :
  evaluateAccess required a t pathname r1 ->
  evaluateAccess required a t pathname r2 ->
  r1 = r2.
Proof.
  intros H1 H2.
  destruct H1 as [Hl | Hr Han | u roles Hr Hid Hreq Hnot
                  | u Hr Hid Hall Hroute | u Hr Hid Hall Hroute];
    destruct H2 as [Hl' | Hr' Han' | u' roles' Hr' Hid' Hreq' Hnot'
                    | u' Hr' Hid' Hall' Hroute' | u' Hr' Hid' Hall' Hroute'];
    try reflexivity; try contradiction;
    try (exfalso; eapply anonymous_not_identity; eassumption);
    assert (u = u') as <- by (destruct Hid, Hid'; congruence).
  - exfalso. apply Hnot. by apply Hall'.
  - congruence.
  - exfalso. apply Hnot'. by apply Hall.
  - congruence.
Qed.

(** C2. For every snapshot of its inputs the guard decides in this order:
    the loading view while the session or the tenant scope is loading; else
    the redirect to sign-in when the session is anonymous; else the
    unauthorized view when required roles are passed and do not contain the
    identity's role; else the unauthorized view when [canAccessRoute] is
    false for the role and the requested path; otherwise the children. The
    view is a function of these inputs alone. *)
Theorem ProtectedRoute_decision (required : option (list UserRole))
    (a : AuthState) (t : TenantState) (pathname : string) (r : Rendered) :
  evaluateAccess required a t pathname r ↔
  ProtectedRoute required a t pathname = r.
Proof.
  split.
  - intros Hspec. eapply evaluateAccess_functional; [| exact Hspec].
    apply ProtectedRoute_sound.
  - intros <-. apply ProtectedRoute_sound.
Qed.

(** ** Tenant scope *)

Ltac eff_unfold :=
  unfold exec, bind, ret, throw, try_catch, await, getItem, setItem, removeItem,
    setAuthState, setTenantState, useAuth, useTenant; simpl.

Lemma no_switch_not_super_admin (role : UserRole) :
  canSwitchTenants (getPermissions role) = false ↔ role ≠ super_admin.
Proof. destruct role; simpl; split; intros H; try done. Qed.

Lemma can_switch_super_admin (role : UserRole) :
  canSwitchTenants (getPermissions role) = true ↔ role = super_admin.
Proof. destruct role; simpl; split; intros H; try done. Qed.

(** C1. An identity whose role cannot switch tenants gets [Unauthorized]
    from every call of [switchTenant], whatever the argument, and nothing
    changes. For a super admin the call fails with [TenantNotFound], and
    changes nothing, when the id is that of no available tenant; otherwise
    it makes the first available tenant with that id the current one and
    stores the id. *)
Theorem switchTenant_spec (w : World) (tenantId : string) (u : User) :
  user (auth w) = Some u ->
  (canSwitchTenants (getPermissions (User_role u)) = false ->
     switchTenant tenantId w = (Rejected Unauthorized, w)) ∧
  (User_role u = super_admin ->
     (∀ t, t ∈ availableTenants (tenant w) -> Tenant_id t ≠ tenantId) ->
     switchTenant tenantId w = (Rejected TenantNotFound, w)) ∧
  (User_role u = super_admin ->
     (∃ t, t ∈ availableTenants (tenant w) ∧ Tenant_id t = tenantId) ->
     ∃ t pre post,
       availableTenants (tenant w) = pre ++ t :: post ∧
       Tenant_id t = tenantId ∧
       (∀ x, x ∈ pre -> Tenant_id x ≠ tenantId) ∧
       switchTenant tenantId w =
         (Resolved tt,
          {| localStorage := <[TENANT_STORAGE_KEY := tenantId]> (localStorage w);
             auth := auth w;
             tenant := {| currentTenant := Some t;
                          availableTenants := availableTenants (tenant w);
                          tenantLoading := tenantLoading (tenant w) |} |})).
Proof.
  intros Huser. unfold switchTenant. eff_unfold. rewrite Huser.
  split_and!.
  - intros Hno%no_switch_not_super_admin.
    by rewrite bool_decide_eq_true_2.
  - intros Hrole Hnone. rewrite bool_decide_eq_false_2 by (by intros []).
    unfold find_tenant.
    by rewrite (proj2 (find_key_None Tenant_id tenantId _) Hnone).
  - intros Hrole Hsome. rewrite bool_decide_eq_false_2 by (by intros []).
    apply (find_key_is_Some Tenant_id) in Hsome as [t Hfind].
    unfold find_tenant. rewrite Hfind.
    apply find_key_Some in Hfind as (pre & post & Hl & Hid & Hpre).
    by exists t, pre, post.
Qed.

Lemma switchTenant_spec_witness :
  switchTenant "tenant-2" (signed_in org_admin "tenant-1") =
    (Rejected Unauthorized, signed_in org_admin "tenant-1") ∧
  switchTenant "tenant-9" (signed_in super_admin "tenant-1") =
    (Rejected TenantNotFound, signed_in super_admin "tenant-1") ∧
  ∃ t pre post,
    availableTenants (tenant (signed_in super_admin "tenant-1")) = pre ++ t :: post ∧
    Tenant_id t = "tenant-2" ∧
    (∀ x, x ∈ pre -> Tenant_id x ≠ "tenant-2") ∧
    switchTenant "tenant-2" (signed_in super_admin "tenant-1") =
      (Resolved tt,
       {| localStorage :=
            <[TENANT_STORAGE_KEY := "tenant-2"]>
              (localStorage (signed_in super_admin "tenant-1"));
          auth := auth (signed_in super_admin "tenant-1");
          tenant :=
            {| currentTenant := Some t;
               availableTenants := availableTenants (tenant (signed_in super_admin "tenant-1"));
               tenantLoading := tenantLoading (tenant (signed_in super_admin "tenant-1")) |} |}).
Proof.
  split_and!.
  - eapply (switchTenant_spec (signed_in org_admin "tenant-1") "tenant-2");
      [vm_compute; reflexivity | vm_compute; reflexivity].
  - eapply (switchTenant_spec (signed_in super_admin "tenant-1") "tenant-9");
      [vm_compute; reflexivity | vm_compute; reflexivity |].
    intros t Ht.
    replace (availableTenants (tenant (signed_in super_admin "tenant-1")))
      with mockTenants in Ht by (vm_compute; reflexivity).
    unfold mockTenants in Ht. rewrite !elem_of_cons, elem_of_nil in Ht.
    destruct Ht as [-> | [-> | [-> | []]]]; simpl; discriminate.
  - eapply (switchTenant_spec (signed_in super_admin "tenant-1") "tenant-2");
      [vm_compute; reflexivity | vm_compute; reflexivity |].
    exists (mkTenant "tenant-2" "TechStart Inc" "techstart" None "2024-02-20T14:30:00Z").
    split; [| reflexivity].
    replace (availableTenants (tenant (signed_in super_admin "tenant-1")))
      with mockTenants by (vm_compute; reflexivity).
    unfold mockTenants. right. left.
Defined.

(** The switching scenario of the specification, run on the mock catalog. *)
Example switchTenant_scenario :
  currentTenant (tenant (signed_in super_admin "tenant-1")) = mockTenants !! 0%nat ∧
  currentTenant (tenant (exec (switchTenant "tenant-2") (signed_in super_admin "tenant-1")))
    = mockTenants !! 1%nat ∧
  localStorage (exec (switchTenant "tenant-2") (signed_in super_admin "tenant-1"))
    !! TENANT_STORAGE_KEY = Some "tenant-2".
Proof. vm_compute. done. Qed.

(** The recompute never throws: a failed fetch is caught. *)
Lemma loadTenants_resolved (api : TenantsApi) (w : World) :
  fst (loadTenants api w) = Resolved tt.
Proof.
  unfold loadTenants. eff_unfold.
  destruct (isAuthenticated (auth w)); [| done].
  destruct (user (auth w)) as [u|]; [| done].
  destruct (api_getAll api) as [catalog|e]; [| done]. simpl.
  by destruct (if bool_decide (User_role u = super_admin) then _ else _).
Qed.

(** The recompute step by step, for every catalog: the state and the store
    it leaves, and the tenant it resolves, in terms of [find_tenant] and of
    the truthiness test on the persisted id. *)
Lemma loadTenants_recompute (api : TenantsApi) (catalog : list Tenant)
    (w : World) (u : User) :
  isAuthenticated (auth w) = true ->
  user (auth w) = Some u ->
  api_getAll api = Resolved catalog ->
  ∃ current,
    loadTenants api w =
      (Resolved tt,
       {| localStorage :=
            match current with
            | Some t => <[TENANT_STORAGE_KEY := Tenant_id t]> (localStorage w)
            | None => localStorage w
            end;
          auth := auth w;
          tenant :=
            {| currentTenant := current;
               availableTenants :=
                 if canSwitchTenants (getPermissions (User_role u)) then catalog else [];
               tenantLoading := false |} |}) ∧
    (canSwitchTenants (getPermissions (User_role u)) = false ->
       current = find_tenant (User_tenantId u) catalog) ∧
    (canSwitchTenants (getPermissions (User_role u)) = true ->
       (∀ sid t,
          localStorage w !! TENANT_STORAGE_KEY = Some sid ∧ sid ≠ "" ∧
          find_tenant sid catalog = Some t ->
          current = Some t) ∧
       (localStorage w !! TENANT_STORAGE_KEY = None ∨
        localStorage w !! TENANT_STORAGE_KEY = Some "" ∨
        (∃ sid, localStorage w !! TENANT_STORAGE_KEY = Some sid ∧
                ∀ t, t ∈ catalog -> Tenant_id t ≠ sid) ->
        current = head catalog)).
Proof.
  intros Hauth Huser Hfetch.
  unfold loadTenants. eff_unfold. rewrite Hauth, Huser, Hfetch. simpl.
  destruct (decide (User_role u = super_admin)) as [Hrole | Hrole].
  - rewrite (bool_decide_eq_true_2 _ Hrole).
    rewrite (proj2 (can_switch_super_admin _) Hrole).
    match goal with
    | |- context [mkTenantState ?c _ false] => exists c; split; [by destruct c |]
    end.
    split; [done |]. intros _. split.
    + intros sid t (Hstored & Hsid & Hfind). rewrite Hstored.
      unfold truthy. rewrite (bool_decide_eq_false_2 _ Hsid). simpl.
      by rewrite Hfind.
    + intros [Hnone | [Hempty | (sid & Hstored & Habsent)]].
      * by rewrite Hnone.
      * by rewrite Hempty.
      * rewrite Hstored. destruct (truthy sid); [| done].
        unfold find_tenant.
        by rewrite (proj2 (find_key_None Tenant_id sid catalog) Habsent).
  - rewrite (bool_decide_eq_false_2 _ Hrole).
    rewrite (proj2 (no_switch_not_super_admin _) Hrole).
    match goal with
    | |- context [mkTenantState ?c _ false] => exists c; split; [by destruct c |]
    end.
    split; [| done]. intros _.
    by destruct (find_tenant (User_tenantId u) catalog).
Qed.

Lemma entry_with_id_find (tid : string) (catalog : list Tenant) (t : Tenant) :
  entry_with_id tid catalog t ↔ find_tenant tid catalog = Some t.
Proof. unfold entry_with_id, find_tenant. by rewrite find_key_Some. Qed.

Lemma no_entry_with_id_find (tid : string) (catalog : list Tenant) :
  no_entry_with_id tid catalog ↔ find_tenant tid catalog = None.
Proof. unfold no_entry_with_id, find_tenant. by rewrite find_key_None. Qed.

Lemma entry_with_id_elem (tid : string) (catalog : list Tenant) (t : Tenant) :
  entry_with_id tid catalog t -> t ∈ catalog ∧ Tenant_id t = tid.
Proof.
  intros (before & after & -> & Hid & _). split; [| done].
  apply elem_of_app. right. left.
Qed.

(** C4. Tenant-scope recompute on identity change, given the fetched
    catalog, none of whose entries has the empty string as id (as in every
    catalog the Data Service returns). If the identity's role cannot switch
    tenants, [availableTenants] is set to empty and [currentTenant] to the
    catalog entry whose id equals the identity's [tenantId], or to none when
    no such entry exists. If the role can switch tenants,
    [availableTenants] is the full catalog in catalog order, and
    [currentTenant] is the catalog entry matching the persisted
    tenant-choice id if it still exists in the catalog, else the first
    catalog entry, else none when the catalog is empty; the id of the
    resolved [currentTenant] is persisted back to the store. The recompute
    does not throw and ends not loading. *)
Theorem loadTenants_recompute_rule (api : TenantsApi) (catalog : list Tenant)
    (w : World) (u : User) :
  isAuthenticated (auth w) = true ->
  user (auth w) = Some u ->
  api_getAll api = Resolved catalog ->
  (∀ t, t ∈ catalog -> Tenant_id t ≠ "") ->
  fst (loadTenants api w) = Resolved tt ∧
  tenantLoading (tenant (exec (loadTenants api) w)) = false ∧
  (canSwitchTenants (getPermissions (User_role u)) = false ->
     availableTenants (tenant (exec (loadTenants api) w)) = [] ∧
     (∀ t, entry_with_id (User_tenantId u) catalog t ->
           currentTenant (tenant (exec (loadTenants api) w)) = Some t) ∧
     (no_entry_with_id (User_tenantId u) catalog ->
        currentTenant (tenant (exec (loadTenants api) w)) = None)) ∧
  (canSwitchTenants (getPermissions (User_role u)) = true ->
     availableTenants (tenant (exec (loadTenants api) w)) = catalog ∧
     (∀ sid t,
        localStorage w !! TENANT_STORAGE_KEY = Some sid ∧ entry_with_id sid catalog t ->
        currentTenant (tenant (exec (loadTenants api) w)) = Some t) ∧
     (localStorage w !! TENANT_STORAGE_KEY = None ∨
      (∃ sid, localStorage w !! TENANT_STORAGE_KEY = Some sid ∧
              no_entry_with_id sid catalog) ->
      (∀ first rest, catalog = first :: rest ->
         currentTenant (tenant (exec (loadTenants api) w)) = Some first) ∧
      (catalog = [] -> currentTenant (tenant (exec (loadTenants api) w)) = None)) ∧
     (∀ t, currentTenant (tenant (exec (loadTenants api) w)) = Some t ->
           localStorage (exec (loadTenants api) w) !! TENANT_STORAGE_KEY
             = Some (Tenant_id t))).
Proof.
  intros Hauth Huser Hfetch Hids.
  destruct (loadTenants_recompute api catalog w u Hauth Huser Hfetch)
    as (current & Hrun & Hlocked & Hswitch).
  unfold exec. rewrite Hrun. cbn [fst snd tenant localStorage currentTenant
    availableTenants tenantLoading].
  split; [done |]. split; [done |]. split.
  - intros Hno. rewrite Hno, (Hlocked Hno). split_and!; [done | |].
    + by intros t Ht%entry_with_id_find.
    + by intros Hnone%no_entry_with_id_find.
  - intros Hyes. rewrite Hyes. destruct (Hswitch Hyes) as [Hchoice Hfirst].
    split_and!; [done | | |].
    + intros sid t [Hstored Hentry]. apply (Hchoice sid t).
      split_and!; [done | | by apply entry_with_id_find].
      apply entry_with_id_elem in Hentry as [Hin <-]. by apply Hids.
    + intros Hnone. rewrite Hfirst.
      * split; [by intros first rest -> | by intros ->].
      * destruct Hnone as [Hnone | (sid & Hstored & Habsent)]; [by left |].
        right. right. by exists sid.
    + intros t ->. apply lookup_insert_eq.
Qed.

Lemma mockTenants_id_not_empty (t : Tenant) : t ∈ mockTenants -> Tenant_id t ≠ "".
Proof.
  unfold mockTenants. rewrite !elem_of_cons, elem_of_nil.
  intros [-> | [-> | [-> | []]]]; discriminate.
Qed.

(** On the mock catalog: a super admin whose persisted choice is the
    second tenant is put on it again after a reload, and an org admin of
    the second tenant is pinned to it with no tenants to choose from. *)
Lemma loadTenants_recompute_rule_witness :
  localStorage reloaded_on_second !! TENANT_STORAGE_KEY = Some "tenant-2" ∧
  currentTenant (tenant (exec (loadTenants tenantsApi) reloaded_on_second))
    = mockTenants !! 1%nat ∧
  availableTenants (tenant (exec (loadTenants tenantsApi) reloaded_on_second))
    = mockTenants ∧
  localStorage (exec (loadTenants tenantsApi) reloaded_on_second) !! TENANT_STORAGE_KEY
    = Some "tenant-2" ∧
  currentTenant (tenant (exec (loadTenants tenantsApi) (after_login org_admin "tenant-2")))
    = mockTenants !! 1%nat ∧
  availableTenants (tenant (exec (loadTenants tenantsApi) (after_login org_admin "tenant-2")))
    = [].
Proof.
  assert (entry_with_id "tenant-2" mockTenants
            (mkTenant "tenant-2" "TechStart Inc" "techstart" None "2024-02-20T14:30:00Z"))
    as Hsecond.
  { exists [mkTenant "tenant-1" "Acme Corporation" "acme" None "2024-01-15T10:00:00Z"],
           [mkTenant "tenant-3" "Global Dynamics" "global-dynamics" None
              "2024-03-10T09:15:00Z"].
    split_and!; [reflexivity | reflexivity |].
    intros x Hx. apply list_elem_of_singleton in Hx as ->. discriminate. }
  assert (∃ u, user (auth reloaded_on_second) = Some u ∧ User_role u = super_admin)
    as (admin & Hadmin & Hadmin_role)
    by (eexists; vm_compute; split; reflexivity).
  assert (∃ u, user (auth (after_login org_admin "tenant-2")) = Some u ∧
               User_role u = org_admin ∧ User_tenantId u = "tenant-2")
    as (org & Horg & Horg_role & Horg_tenant)
    by (eexists; vm_compute; split_and!; reflexivity).
  assert (localStorage reloaded_on_second !! TENANT_STORAGE_KEY = Some "tenant-2")
    as Hstored by (vm_compute; reflexivity).
  destruct (loadTenants_recompute_rule tenantsApi mockTenants reloaded_on_second admin)
    as (_ & _ & _ & Hswitch);
    [vm_compute; reflexivity | exact Hadmin | reflexivity
    | exact mockTenants_id_not_empty |].
  destruct Hswitch as (Hall & Hchoice & _ & Hback); [by rewrite Hadmin_role |].
  destruct (loadTenants_recompute_rule tenantsApi mockTenants
              (after_login org_admin "tenant-2") org)
    as (_ & _ & Hlocked & _);
    [vm_compute; reflexivity | exact Horg | reflexivity
    | exact mockTenants_id_not_empty |].
  destruct Hlocked as (Hempty & Hpinned & _); [by rewrite Horg_role |].
  rewrite Horg_tenant in Hpinned.
  pose proof (Hchoice "tenant-2" _ (conj Hstored Hsecond)) as Hcurrent.
  split_and!; [exact Hstored | exact Hcurrent | exact Hall
              | exact (Hback _ Hcurrent) | exact (Hpinned _ Hsecond) | exact Hempty].
Defined.

(** With no identity the recompute resets the tenant scope. *)
Lemma loadTenants_anonymous (api : TenantsApi) (w : World) :
  anonymous (auth w) ->
  loadTenants api w =
    (Resolved tt,
     with_tenant
       {| currentTenant := None; availableTenants := []; tenantLoading := false |} w).
Proof.
  intros [Hanon | Hanon]; unfold loadTenants; eff_unfold; rewrite Hanon;
    [done | by destruct (isAuthenticated (auth w))].
Qed.

(** C6, as the code has it. [refreshTenants] replaces the available tenants
    by the fetched catalog and changes nothing else: the current tenant
    stays, also when the refreshed catalog no longer has it. A failed fetch
    propagates and changes nothing. *)
Theorem refreshTenants_replaces_available (api : TenantsApi) (w : World) :
  (∀ catalog, api_getAll api = Resolved catalog ->
     refreshTenants api w =
       (Resolved tt,
        {| localStorage := localStorage w;
           auth := auth w;
           tenant := {| currentTenant := currentTenant (tenant w);
                        availableTenants := catalog;
                        tenantLoading := tenantLoading (tenant w) |} |})) ∧
  (∀ e, api_getAll api = Rejected e -> refreshTenants api w = (Rejected e, w)).
Proof.
  split; intros x Hfetch; unfold refreshTenants; eff_unfold; by rewrite Hfetch.
Qed.

Lemma refreshTenants_replaces_available_witness :
  availableTenants (tenant (exec (refreshTenants tenantsApi_without_first)
                              (signed_in super_admin "tenant-1")))
    = tail mockTenants ∧
  currentTenant (tenant (exec (refreshTenants tenantsApi_without_first)
                           (signed_in super_admin "tenant-1")))
    = currentTenant (tenant (signed_in super_admin "tenant-1")).
Proof.
  destruct (refreshTenants_replaces_available tenantsApi_without_first
              (signed_in super_admin "tenant-1")) as [Hok _].
  unfold exec. rewrite (Hok (tail mockTenants)) by reflexivity. simpl.
  split; reflexivity.
Defined.

(** C6 as the specification words it fails: the first mock tenant is
    current, the refreshed catalog no longer has it, and it stays current
    where the specification falls back to the first refreshed entry. *)
Lemma refreshTenants_fallback_counterexample :
  currentTenant (tenant (signed_in super_admin "tenant-1")) = mockTenants !! 0%nat ∧
  current_or_first (currentTenant (tenant (signed_in super_admin "tenant-1")))
    (tail mockTenants) = mockTenants !! 1%nat ∧
  currentTenant (tenant (exec (refreshTenants tenantsApi_without_first)
                           (signed_in super_admin "tenant-1")))
    = mockTenants !! 0%nat ∧
  mockTenants !! 0%nat ≠ mockTenants !! 1%nat.
Proof. vm_compute. split_and!; [reflexivity | reflexivity | reflexivity | discriminate]. Qed.

(** Refreshing twice from an unchanged catalog is refreshing once. *)
Lemma refreshTenants_idempotent (api : TenantsApi) (w : World) :
  refreshTenants api (exec (refreshTenants api) w) = refreshTenants api w.
Proof.
  unfold refreshTenants. eff_unfold. by destruct (api_getAll api).
Qed.

(** ** Identity session *)

(** C7, as the code has it. [logout] awaits the provider's sign-out with no
    handler around it. When that call resolves, as the mock provider's
    always does, the session entry is removed from the store and the
    session is anonymous. When it fails, the failure propagates to the
    caller, and the store and the session are as before. *)
Theorem logout_after_provider (api : AuthApi) (w : World) :
  (api_logout api = Resolved tt ->
     logout api w =
       (Resolved tt,
        {| localStorage := delete AUTH_STORAGE_KEY (localStorage w);
           auth := anonymousAuthState;
           tenant := tenant w |})) ∧
  (∀ e, api_logout api = Rejected e -> logout api w = (Rejected e, w)) ∧
  (∀ clock, api = authApi clock ->
     localStorage (exec (logout api) w) !! AUTH_STORAGE_KEY = None ∧
     auth (exec (logout api) w) = anonymousAuthState).
Proof.
  split_and!.
  - intros Hok. unfold logout. eff_unfold. by rewrite Hok.
  - intros e Hfail. unfold logout. eff_unfold. by rewrite Hfail.
  - intros clock ->. unfold logout. eff_unfold. split; [| done].
    apply lookup_delete_eq.
Qed.

Lemma logout_after_provider_witness :
  localStorage (exec (logout (authApi sample_clock)) (signed_in org_admin "tenant-2"))
    !! AUTH_STORAGE_KEY = None ∧
  auth (exec (logout (authApi sample_clock)) (signed_in org_admin "tenant-2"))
    = anonymousAuthState ∧
  logout authApi_failing_logout (signed_in org_admin "tenant-2")
    = (Rejected (mkError "Network error"), signed_in org_admin "tenant-2").
Proof.
  destruct (logout_after_provider (authApi sample_clock) (signed_in org_admin "tenant-2"))
    as (_ & _ & Hmock).
  destruct (logout_after_provider authApi_failing_logout (signed_in org_admin "tenant-2"))
    as (_ & Hfail & _).
  destruct (Hmock sample_clock eq_refl) as [Hstore Hauth].
  split_and!; [exact Hstore | exact Hauth | by apply Hfail].
Defined.

(** C7 as the specification words it fails: when the provider's sign-out
    fails, [logout] throws, the session entry is still in the store and the
    session is still authenticated. *)
Lemma logout_failing_provider_counterexample :
  fst (logout authApi_failing_logout (signed_in org_admin "tenant-2"))
    = Rejected (mkError "Network error") ∧
  is_Some (localStorage (exec (logout authApi_failing_logout) (signed_in org_admin "tenant-2"))
             !! AUTH_STORAGE_KEY) ∧
  isAuthenticated (auth (exec (logout authApi_failing_logout) (signed_in org_admin "tenant-2")))
    = true ∧
  is_Some (user (auth (exec (logout authApi_failing_logout) (signed_in org_admin "tenant-2")))).
Proof. vm_compute. split_and!; [reflexivity | by eexists | reflexivity | by eexists]. Qed.

Section AuthContextProperties.

Variable JSON_stringify : User -> string.
Variable JSON_parse : string -> option User.

(** The restore effect never throws: a parse failure is caught. *)
Lemma restoreAuth_resolved (w : World) :
  fst (restoreAuth JSON_parse w) = Resolved tt.
Proof.
  unfold restoreAuth, JSON_parse_call. eff_unfold.
  destruct (localStorage w !! AUTH_STORAGE_KEY) as [text|]; [| done].
  destruct (truthy text); [| done].
  by destruct (JSON_parse text).
Qed.

(** C8, as the code has it. On mount, with a stored session value that
    does not parse, the restore effect returns without throwing and the
    session is anonymous. When the value is not the empty string, the
    entry is removed, and a later read of the key returns [null]. The
    empty string is read as no entry: the store is left as it is. *)
Theorem restoreAuth_malformed (w : World) (stored : string) :
  auth w = initialAuthState ->
  localStorage w !! AUTH_STORAGE_KEY = Some stored ->
  JSON_parse stored = None ->
  fst (restoreAuth JSON_parse w) = Resolved tt ∧
  auth (exec (restoreAuth JSON_parse) w) = anonymousAuthState ∧
  tenant (exec (restoreAuth JSON_parse) w) = tenant w ∧
  (stored ≠ "" ->
     localStorage (exec (restoreAuth JSON_parse) w)
       = delete AUTH_STORAGE_KEY (localStorage w) ∧
     localStorage (exec (restoreAuth JSON_parse) w) !! AUTH_STORAGE_KEY = None) ∧
  (stored = "" ->
     localStorage (exec (restoreAuth JSON_parse) w) = localStorage w).
Proof.
  intros Hinit Hstored Hparse. split; [apply restoreAuth_resolved |].
  unfold restoreAuth, JSON_parse_call. eff_unfold. rewrite Hstored.
  unfold truthy. destruct (decide (stored = "")) as [Hempty | Hfull].
  - rewrite (bool_decide_eq_true_2 _ Hempty). simpl. rewrite Hinit.
    split_and!; done.
  - rewrite (bool_decide_eq_false_2 _ Hfull). simpl. rewrite Hparse. simpl.
    rewrite Hinit. split_and!; [done | done | | done].
    intros _. split; [done | apply lookup_delete_eq].
Qed.

(** C9. Sign-in writes the identity to the store, and a session that
    starts again from the initial state over that store restores an
    identity equal to the original, authenticated and not loading. The
    two facts used of the platform's [JSON] are that parsing the text of
    this identity gives it back, and that the empty text does not parse. *)
Theorem session_restore_roundtrip (api : AuthApi) (role : UserRole)
    (tenantId : string) (w : World) (u : User) :
  api_login api role tenantId = Resolved u ->
  JSON_parse (JSON_stringify u) = Some u ->
  JSON_parse "" = None ->
  localStorage (exec (login JSON_stringify api role tenantId) w) !! AUTH_STORAGE_KEY
    = Some (JSON_stringify u) ∧
  restoreAuth JSON_parse (reload (exec (login JSON_stringify api role tenantId) w))
    = (Resolved tt,
       {| localStorage := localStorage (exec (login JSON_stringify api role tenantId) w);
          auth := {| user := Some u; isAuthenticated := true; authLoading := false |};
          tenant := initialTenantState |}).
Proof.
  intros Hlogin Hround Hempty.
  assert (JSON_stringify u ≠ "") as Hfull by (intros Heq; congruence).
  unfold login. eff_unfold. rewrite Hlogin. simpl.
  split; [apply lookup_insert_eq |].
  unfold restoreAuth, JSON_parse_call, reload. eff_unfold.
  rewrite lookup_insert_eq. unfold truthy.
  rewrite (bool_decide_eq_false_2 _ Hfull). simpl. by rewrite Hround.
Qed.

(** C10. The mock provider's sign-in returns a user for every role and
    tenant id, with the requested role. For super_admin it is the first
    mock user, whatever the tenant id. When the role is another one and
    no mock user has the role and the tenant id, it is a new user with
    the requested role and tenant id and the status active. A sign-in
    through this provider never throws: it ends authenticated with that
    user. *)
Theorem authApi_login_total (clock : Clock) (role : UserRole) (tenantId : string) :
  ∃ u,
    authApi_login clock role tenantId = Resolved u ∧
    User_role u = role ∧
    (role = super_admin -> mockUsers !! 0%nat = Some u) ∧
    (role ≠ super_admin ->
       (∀ m, m ∈ mockUsers -> ¬ (User_role m = role ∧ User_tenantId m = tenantId)) ->
       u = {| User_id := "user-" +:+ pretty (Date_now clock);
              User_email := UserRole_literal role +:+ "@" +:+ tenantId +:+ ".com";
              User_name := if bool_decide (role = org_admin) then "Org Admin" else "Member";
              User_role := role;
              User_tenantId := tenantId;
              User_avatarUrl := None;
              User_createdAt := createdAt_iso clock;
              User_lastLoginAt := Some (lastLoginAt_iso clock);
              User_status := active |}) ∧
    (∀ w,
       fst (login JSON_stringify (authApi clock) role tenantId w) = Resolved tt ∧
       auth (exec (login JSON_stringify (authApi clock) role tenantId) w)
         = {| user := Some u; isAuthenticated := true; authLoading := false |}).
Proof.
  eexists. split; [reflexivity |]. split_and!.
  - destruct (decide (role = super_admin)) as [-> | Hrole]; [reflexivity |].
    rewrite (bool_decide_eq_false_2 _ Hrole).
    destruct (List.find _ mockUsers) as [m|] eqn:Hfind; [| reflexivity].
    apply find_some in Hfind as [_ Hm].
    apply andb_true_iff in Hm as [Hm _]. by apply bool_decide_eq_true in Hm.
  - by intros ->.
  - intros Hrole Hnone. rewrite (bool_decide_eq_false_2 _ Hrole).
    destruct (List.find _ mockUsers) as [m|] eqn:Hfind; [| reflexivity].
    apply find_some in Hfind as [Hin Hm]. exfalso.
    apply andb_true_iff in Hm as [Hr Ht].
    apply bool_decide_eq_true in Hr, Ht.
    apply (Hnone m); [by apply list_elem_of_In | done].
  - intros w. unfold login. eff_unfold. done.
Qed.

(** The session's two flags agree at process start and after every
    operation of the provider, so on these sessions "anonymous" is "holds
    no user". *)
Lemma session_consistent_initial : session_consistent initialAuthState.
Proof. split; [done | by intros [u Hu]]. Qed.

Lemma session_consistent_restoreAuth (w : World) :
  session_consistent (auth w) ->
  session_consistent (auth (exec (restoreAuth JSON_parse) w)).
Proof.
  intros Hw. unfold restoreAuth, JSON_parse_call. eff_unfold.
  destruct (localStorage w !! AUTH_STORAGE_KEY) as [text|]; [| done].
  destruct (truthy text); [| done].
  destruct (JSON_parse text) as [u|]; [| done].
  split; [by eexists | done].
Qed.

Lemma session_consistent_login (api : AuthApi) (role : UserRole)
    (tenantId : string) (w : World) :
  session_consistent (auth w) ->
  session_consistent (auth (exec (login JSON_stringify api role tenantId) w)).
Proof.
  intros Hw. unfold login. eff_unfold.
  destruct (api_login api role tenantId) as [u|e]; [| done].
  split; [by eexists | done].
Qed.

Lemma session_consistent_logout (api : AuthApi) (w : World) :
  session_consistent (auth w) ->
  session_consistent (auth (exec (logout api) w)).
Proof.
  intros Hw. unfold logout. eff_unfold.
  destruct (api_logout api) as [[]|e]; [| done].
  split; [done | by intros [u Hu]].
Qed.

Lemma anonymous_no_user (a : AuthState) :
  session_consistent a -> anonymous a ↔ user a = None.
Proof.
  intros [Hto Hfrom]. unfold anonymous. split; [| by right].
  intros [Hanon | Hanon]; [| done].
  destruct (user a) as [u|]; [| done].
  rewrite Hfrom in Hanon by by eexists. discriminate.
Qed.

End AuthContextProperties.

Lemma restoreAuth_malformed_witness :
  fst (restoreAuth RefJSON.parse truncated_session_entry) = Resolved tt ∧
  auth (exec (restoreAuth RefJSON.parse) truncated_session_entry) = anonymousAuthState ∧
  localStorage (exec (restoreAuth RefJSON.parse) truncated_session_entry)
    !! AUTH_STORAGE_KEY = None.
Proof.
  destruct (restoreAuth_malformed RefJSON.parse truncated_session_entry "{")
    as (Hret & Hauth & _ & Hremoved & _);
    [reflexivity | vm_compute; reflexivity | vm_compute; reflexivity |].
  split_and!; [exact Hret | exact Hauth |].
  apply Hremoved. discriminate.
Defined.

(** C8 as the specification words it fails: the empty string does not
    parse, and after the restore effect it is still in the store, where the
    specification has a read of the key return [null]. *)
Lemma restoreAuth_empty_entry_counterexample :
  localStorage empty_session_entry !! AUTH_STORAGE_KEY = Some "" ∧
  RefJSON.parse "" = None ∧
  auth (exec (restoreAuth RefJSON.parse) empty_session_entry) = anonymousAuthState ∧
  localStorage (exec (restoreAuth RefJSON.parse) empty_session_entry)
    !! AUTH_STORAGE_KEY = Some "".
Proof. vm_compute. split_and!; reflexivity. Qed.

Lemma session_restore_roundtrip_witness :
  ∃ u,
    authApi_login sample_clock org_admin "tenant-2" = Resolved u ∧
    User_role u = org_admin ∧
    User_tenantId u = "tenant-2" ∧
    restoreAuth RefJSON.parse (reload (after_login org_admin "tenant-2"))
      = (Resolved tt,
         {| localStorage := localStorage (after_login org_admin "tenant-2");
            auth := {| user := Some u; isAuthenticated := true; authLoading := false |};
            tenant := initialTenantState |}).
Proof.
  eexists. split; [reflexivity |]. split; [reflexivity |]. split; [reflexivity |].
  unfold after_login.
  eapply (session_restore_roundtrip RefJSON.stringify RefJSON.parse
            (authApi sample_clock) org_admin "tenant-2");
    [reflexivity | vm_compute; reflexivity | vm_compute; reflexivity].
Defined.

(** The end-to-end scenario of the specification: an org admin of tenant-1
    signs in while the catalog is the mock one. *)
Example org_admin_scenario :
  currentTenant (tenant (signed_in org_admin "tenant-1")) = mockTenants !! 0%nat ∧
  availableTenants (tenant (signed_in org_admin "tenant-1")) = [] ∧
  ProtectedRoute None (auth (signed_in org_admin "tenant-1"))
    (tenant (signed_in org_admin "tenant-1")) "/dashboard/settings" = Children ∧
  ProtectedRoute (Some [super_admin]) (auth (signed_in org_admin "tenant-1"))
    (tenant (signed_in org_admin "tenant-1")) "/dashboard/users" = UnauthorizedFallback.
Proof. vm_compute. split_and!; reflexivity. Qed.

(** The mock provider makes up a user for a tenant it has no user of. *)
Example authApi_login_new_user :
  authApi_login sample_clock member "tenant-9" =
    Resolved {| User_id := "user-1735000000000";
                User_email := "member@tenant-9.com";
                User_name := "Member";
                User_role := member;
                User_tenantId := "tenant-9";
                User_avatarUrl := None;
                User_createdAt := "2024-12-24T00:26:40.000Z";
                User_lastLoginAt := Some "2024-12-24T00:26:40.000Z";
                User_status := active |}.
Proof. vm_compute. reflexivity. Qed.

(** * Properties of the rest of the code *)

(** ** Role policy: navigation, routes and permissions together *)

Lemma canAccessRoute_of_entry (role : UserRole) (item : NavItem) :
  item ∈ navigationItems ->
  canAccessRoute role (path item) = includes (requiredRoles item) role.
Proof.
  unfold navigationItems. rewrite !elem_of_cons, elem_of_nil.
  by intros [-> | [-> | [-> | []]]].
Qed.

Lemma List_filter_sublist {A : Type} (f : A -> bool) (l : list A) :
  sublist (List.filter f l) l.
Proof.
  induction l as [|x l IH]; simpl; [constructor |].
  destruct (f x); by constructor.
Qed.

(** A route is denied to a role only on the Users and Settings paths, and
    only to a member. *)
Lemma canAccessRoute_false_iff (role : UserRole) (p : string) :
  canAccessRoute role p = false ↔
  role = member ∧ (p = "/dashboard/users" ∨ p = "/dashboard/settings").
Proof.
  unfold canAccessRoute, navigationItems. simpl.
  repeat case_bool_decide; subst; simpl;
    destruct role; unfold includes; simpl; split;
    first [ discriminate
          | by intros [? _]
          | by intros [_ [? | ?]]
          | by (intros _; split; [reflexivity | by left])
          | by (intros _; split; [reflexivity | by right])
          | idtac ].
Qed.

(** X1. The sidebar and the guard agree: the navigation of a role is, in
    catalog order, exactly the catalog entries whose path [canAccessRoute]
    allows to the role. *)
Theorem navigation_agrees_with_guard (role : UserRole) (item : NavItem) :
  sublist (getNavigationForRole role) navigationItems ∧
  (item ∈ getNavigationForRole role ↔
   item ∈ navigationItems ∧ canAccessRoute role (path item) = true).
Proof.
  split; [apply List_filter_sublist |].
  unfold getNavigationForRole. rewrite list_elem_of_In, filter_In, <- list_elem_of_In.
  split; intros [Hin Hok]; (split; [done |]).
  - by rewrite canAccessRoute_of_entry.
  - by rewrite <- canAccessRoute_of_entry.
Qed.

(** X2. Privileges grow with the role, member below org_admin below
    super_admin: a higher role has every permission, every allowed route
    and every navigation entry of a lower one. *)
Theorem privileges_grow_with_role (low high : UserRole) :
  role_rank low <= role_rank high ->
  (∀ key, hasPermission low key = true -> hasPermission high key = true) ∧
  (∀ p, canAccessRoute low p = true -> canAccessRoute high p = true) ∧
  sublist (getNavigationForRole low) (getNavigationForRole high).
Proof.
  intros Hrank. split_and!.
  - intros key. destruct low, high, key; simpl in *; first [done | lia].
  - intros p Hlow. destruct (canAccessRoute high p) eqn:Hhigh; [done |].
    apply canAccessRoute_false_iff in Hhigh as [-> Hp].
    destruct low; simpl in Hrank; try lia.
    rewrite (proj2 (canAccessRoute_false_iff member p)) in Hlow; done.
  - destruct low, high; simpl in Hrank; try lia;
      vm_compute; repeat first [apply sublist_skip; fail | constructor].
Qed.

Lemma privileges_grow_with_role_witness :
  (∀ key, hasPermission member key = true -> hasPermission org_admin key = true) ∧
  (∀ p, canAccessRoute member p = true -> canAccessRoute org_admin p = true) ∧
  sublist (getNavigationForRole member) (getNavigationForRole org_admin).
Proof. apply (privileges_grow_with_role member org_admin). simpl. lia. Defined.

(** X3. The guard denies a route exactly when the route is the Users page
    and the role lacks [canManageUsers], or the Settings page and the role
    lacks [canEditSettings]; every other path is open to every role. *)
Theorem canAccessRoute_denies_iff (role : UserRole) (p : string) :
  canAccessRoute role p = false ↔
  (p = "/dashboard/users" ∧ hasPermission role key_canManageUsers = false) ∨
  (p = "/dashboard/settings" ∧ hasPermission role key_canEditSettings = false).
Proof.
  rewrite canAccessRoute_false_iff. split.
  - intros [-> [-> | ->]]; [by left | by right].
  - intros [[-> Hperm] | [-> Hperm]]; destruct role; try discriminate Hperm;
      (split; [reflexivity |]); [by left | by right].
Qed.

(** ** Mock API: pages of users *)

Section Pagination.

Local Open Scope Z_scope.

Context {A : Type}.
Implicit Types l : list A.

Lemma Array_slice_sublist l (start final : Z) :
  sublist (Array_slice l start final) l.
Proof.
  unfold Array_slice. etrans; [apply sublist_take | apply sublist_drop].
Qed.

(** A window that starts at or after 0 is a [take] of a [drop]. *)
Lemma Array_slice_window l (start n : Z) :
  0 <= start -> 0 <= n ->
  Array_slice l start (start + n) = take (Z.to_nat n) (drop (Z.to_nat start) l).
Proof.
  intros Hstart Hn. unfold Array_slice, relative_index.
  rewrite !bool_decide_eq_false_2 by lia.
  destruct (decide (Z.of_nat (length l) <= start)) as [Hout | Hin].
  - rewrite Z.min_r by lia. rewrite !drop_ge by lia. by rewrite !take_nil.
  - rewrite (Z.min_l start) by lia.
    destruct (decide (start + n <= Z.of_nat (length l))) as [Hfit | Hcut].
    + rewrite Z.min_l by lia. f_equal. lia.
    + rewrite Z.min_r by lia.
      rewrite !take_ge; [done | |]; rewrite length_drop; lia.
Qed.

(** A slice that ends at index 0 is empty. *)
Lemma Array_slice_to_zero l (start final : Z) :
  final = 0 -> Array_slice l start final = [].
Proof.
  intros ->. unfold Array_slice, relative_index.
  rewrite (bool_decide_eq_false_2 (0 < 0)) by lia.
  replace (Z.to_nat _) with 0%nat; [done |].
  case_bool_decide; lia.
Qed.

Lemma Math_ceil_quotient_positive (n : nat) (d : Z) :
  1 <= d ->
  ∃ tp, Math_ceil_quotient n d = Int tp ∧
        (tp - 1) * d < Z.of_nat n <= tp * d.
Proof.
  intros Hd. unfold Math_ceil_quotient.
  rewrite bool_decide_eq_false_2 by lia.
  eexists. split; [reflexivity |].
  pose proof (Z.div_mod (- Z.of_nat n) d ltac:(lia)) as Hdiv.
  pose proof (Z.mod_pos_bound (- Z.of_nat n) d ltac:(lia)) as Hmod.
  nia.
Qed.

(** Leaving out the first page of [n] rows shifts the windows by [n]. *)
Lemma window_concat l (n count : nat) :
  concat (map (fun i : nat => take n (drop (i * n) l)) (seq 0 count))
  = take (count * n) l.
Proof.
  induction count as [|count IH]; [done |].
  rewrite seq_S, map_app, concat_app, IH. simpl. rewrite app_nil_r.
  rewrite take_take_drop. f_equal. lia.
Qed.

End Pagination.

Section UsersApi.

Local Open Scope Z_scope.

Lemma is_page_of_slice (l : list User) (page pageSize : Z) :
  1 <= page -> 1 <= pageSize ->
  is_page_of l page pageSize
    {| data := Array_slice l ((page - 1) * pageSize) ((page - 1) * pageSize + pageSize);
       total := Array_length l;
       page := page;
       pageSize := pageSize;
       totalPages := Math_ceil_quotient (length l) pageSize |}.
Proof.
  intros Hpage Hsize. unfold is_page_of. cbn [data total totalPages].
  rewrite Array_slice_window by nia.
  split; [done |]. split; [done |].
  destruct (Math_ceil_quotient_positive (length l) pageSize Hsize)
    as (tp & Htp & Hlow & Hhigh).
  exists tp. unfold Array_length. split_and!; [done | done | done |].
  set (start := (page - 1) * pageSize).
  assert (0 <= start) by (unfold start; nia).
  split.
  - intros Hrows.
    destruct (decide (page <= tp)) as [|Hbeyond]; [done |]. exfalso. apply Hrows.
    rewrite drop_ge; [apply take_nil |]. unfold start in *. nia.
  - intros Hwithin.
    assert (Z.to_nat start < length l)%nat as Hlt by (unfold start in *; nia).
    destruct (drop (Z.to_nat start) l) as [|x rest] eqn:Hdrop.
    + apply (f_equal length) in Hdrop. rewrite length_drop in Hdrop. simpl in Hdrop. lia.
    + destruct (Z.to_nat pageSize) as [|k] eqn:Hk; [lia | done].
Qed.

(** X4. [usersApi.getByTenant] never returns a user of another tenant, for
    any page and page size: its rows are users of the requested tenant, in
    the order of the user list and without repetition of a position, and
    [total] counts all users of that tenant, whatever the page. *)
Theorem usersApi_getByTenant_scope (tenantId : string) (page pageSize : Z) :
  sublist (data (usersApi_getByTenant tenantId page pageSize)) (users_of_tenant tenantId) ∧
  (∀ u, u ∈ data (usersApi_getByTenant tenantId page pageSize) ->
        u ∈ mockUsers ∧ User_tenantId u = tenantId) ∧
  total (usersApi_getByTenant tenantId page pageSize)
    = Array_length (users_of_tenant tenantId) ∧
  Array_length (data (usersApi_getByTenant tenantId page pageSize))
    <= total (usersApi_getByTenant tenantId page pageSize).
Proof.
  unfold usersApi_getByTenant. cbn [data total]. fold (users_of_tenant tenantId).
  pose proof (Array_slice_sublist (users_of_tenant tenantId)
                ((page - 1) * pageSize) ((page - 1) * pageSize + pageSize)) as Hsub.
  split_and!; [done | | done |].
  - intros u Hu. eapply sublist_submseteq, elem_of_submseteq in Hsub; [| exact Hu].
    unfold users_of_tenant in Hsub.
    apply list_elem_of_In, filter_In in Hsub as [Hin Hkey].
    split; [by apply list_elem_of_In | by apply bool_decide_eq_true in Hkey].
  - unfold Array_length. apply sublist_length in Hsub. lia.
Qed.

(** X5. For a page number and a page size of at least 1, [getByTenant] and
    [getAll] return the window of [pageSize] rows that starts after the
    [page - 1] pages before it; [totalPages] is the least number of pages
    that covers the rows, and the page has rows exactly when it is at most
    [totalPages]. *)
Theorem usersApi_page_window (tenantId : string) (page pageSize : Z) :
  1 <= page -> 1 <= pageSize ->
  is_page_of (users_of_tenant tenantId) page pageSize
    (usersApi_getByTenant tenantId page pageSize) ∧
  is_page_of mockUsers page pageSize (usersApi_getAll page pageSize).
Proof.
  intros Hpage Hsize. split; by apply is_page_of_slice.
Qed.

Lemma usersApi_page_window_witness :
  is_page_of (users_of_tenant "tenant-3") 2 2 (usersApi_getByTenant "tenant-3" 2 2) ∧
  is_page_of mockUsers 2 2 (usersApi_getAll 2 2).
Proof. apply (usersApi_page_window "tenant-3" 2 2); lia. Defined.

Lemma pages_cover (l : list User) (pageSize tp : Z) :
  1 <= pageSize ->
  Array_length l <= tp * pageSize ->
  concat (map (fun p => Array_slice l ((p - 1) * pageSize) ((p - 1) * pageSize + pageSize))
            (seqZ 1 tp)) = l.
Proof.
  intros Hsize Hcover. unfold seqZ.
  rewrite <- list_fmap_compose.
  rewrite (list_fmap_ext _
             (fun i : nat => take (Z.to_nat pageSize) (drop (i * Z.to_nat pageSize) l))).
  - change (fmap ?f ?xs) with (map f xs).
    rewrite window_concat. apply take_ge. unfold Array_length in Hcover. nia.
  - intros i x _. simpl. rewrite Array_slice_window by nia. do 2 f_equal. nia.
Qed.

(** X6. With a page size of at least 1, the pages 1 to [totalPages] of
    [getAll], one after the other, are the whole user list, and those of
    [getByTenant] are all users of the tenant: paging loses no user and
    shows none twice. *)
Theorem usersApi_pages_cover (tenantId : string) (pageSize : Z) :
  1 <= pageSize ->
  (∃ tp, totalPages (usersApi_getAll 1 pageSize) = Int tp ∧
         concat (map (fun p => data (usersApi_getAll p pageSize)) (seqZ 1 tp))
           = mockUsers) ∧
  (∃ tp, totalPages (usersApi_getByTenant tenantId 1 pageSize) = Int tp ∧
         concat (map (fun p => data (usersApi_getByTenant tenantId p pageSize)) (seqZ 1 tp))
           = users_of_tenant tenantId).
Proof.
  intros Hsize. split.
  - destruct (Math_ceil_quotient_positive (length mockUsers) pageSize Hsize)
      as (tp & Htp & _ & Hhigh).
    exists tp. split; [exact Htp |]. by apply pages_cover.
  - destruct (Math_ceil_quotient_positive (length (users_of_tenant tenantId)) pageSize Hsize)
      as (tp & Htp & _ & Hhigh).
    exists tp. split; [exact Htp |]. by apply (pages_cover (users_of_tenant tenantId)).
Qed.

Lemma usersApi_pages_cover_witness :
  (∃ tp, totalPages (usersApi_getAll 1 3) = Int tp ∧
         concat (map (fun p => data (usersApi_getAll p 3)) (seqZ 1 tp)) = mockUsers) ∧
  (∃ tp, totalPages (usersApi_getByTenant "tenant-3" 1 3) = Int tp ∧
         concat (map (fun p => data (usersApi_getByTenant "tenant-3" p 3)) (seqZ 1 tp))
           = users_of_tenant "tenant-3").
Proof. apply (usersApi_pages_cover "tenant-3" 3). lia. Defined.

(** X7. Page 0 and page size 0 give no rows, for every tenant; with page
    size 0 the page count is no integer: [Infinity] when the tenant has
    users, [NaN] when it has none. *)
Theorem usersApi_degenerate_page (tenantId : string) (n : Z) :
  data (usersApi_getByTenant tenantId 0 n) = [] ∧
  data (usersApi_getByTenant tenantId n 0) = [] ∧
  data (usersApi_getAll 0 n) = [] ∧
  data (usersApi_getAll n 0) = [] ∧
  totalPages (usersApi_getAll n 0) = Infinity ∧
  totalPages (usersApi_getByTenant tenantId n 0)
    = (if bool_decide (users_of_tenant tenantId = []) then NaN else Infinity).
Proof.
  unfold usersApi_getByTenant, usersApi_getAll. cbn [data totalPages].
  fold (users_of_tenant tenantId).
  split_and!; try (apply Array_slice_to_zero; lia).
  - reflexivity.
  - unfold Math_ceil_quotient. rewrite bool_decide_eq_true_2 by done.
    by destruct (users_of_tenant tenantId).
Qed.

End UsersApi.

(** ** Mock API: status updates, statistics and tenants by id *)

Section MockApi.

Local Open Scope Z_scope.

Lemma with_status_same (u : User) : with_status (User_status u) u = u.
Proof. by destruct u. Qed.

(** The mock users have pairwise different ids, and so have the tenants. *)
Lemma mockUsers_id_inj (u v : User) :
  u ∈ mockUsers -> v ∈ mockUsers -> User_id u = User_id v -> u = v.
Proof.
  unfold mockUsers. rewrite !elem_of_cons, !elem_of_nil. intros Hu Hv.
  repeat (destruct Hu as [-> | Hu]); try done;
    repeat (destruct Hv as [-> | Hv]); try done;
    simpl; intros Hid; first [reflexivity | discriminate Hid].
Qed.

Lemma mockTenants_id_inj (s t : Tenant) :
  s ∈ mockTenants -> t ∈ mockTenants -> Tenant_id s = Tenant_id t -> s = t.
Proof.
  unfold mockTenants. rewrite !elem_of_cons, !elem_of_nil.
  intros [-> | [-> | [-> | []]]] [-> | [-> | [-> | []]]]; simpl; intros Hid;
    first [reflexivity | discriminate Hid].
Qed.

(** X8. [usersApi.updateStatus] fails with "User not found" exactly when no
    mock user has the id. Otherwise it returns that user with the new
    status and every other field as it was; asked for the status the user
    already has, it returns the user unchanged. *)
Theorem usersApi_updateStatus_spec (userId : string) (status : UserStatus) :
  (usersApi_updateStatus userId status = Rejected (mkError "User not found") ↔
   ∀ u, u ∈ mockUsers -> User_id u ≠ userId) ∧
  (∀ u, u ∈ mockUsers ∧ User_id u = userId ->
     usersApi_updateStatus userId status = Resolved (with_status status u)) ∧
  (∀ u, u ∈ mockUsers ->
     usersApi_updateStatus (User_id u) (User_status u) = Resolved u).
Proof.
  assert (∀ uid st u, u ∈ mockUsers ∧ User_id u = uid ->
            usersApi_updateStatus uid st = Resolved (with_status st u)) as Hfound.
  { intros uid st u [Hin Hid]. unfold usersApi_updateStatus.
    destruct (List.find _ mockUsers) as [v|] eqn:Hfind.
    - apply find_key_Some in Hfind as (pre & post & Hl & Hv & _).
      assert (v ∈ mockUsers) as Hvin.
      { rewrite Hl. apply elem_of_app. right. left. }
      by rewrite (mockUsers_id_inj v u Hvin Hin) by congruence.
    - exfalso. by apply (proj1 (find_key_None User_id uid _) Hfind u). }
  split_and!.
  - unfold usersApi_updateStatus. split.
    + destruct (List.find _ mockUsers) eqn:Hfind; [done |].
      intros _. by apply (find_key_None User_id).
    + intros Hnone. by rewrite (proj2 (find_key_None User_id userId mockUsers) Hnone).
  - apply Hfound.
  - intros u Hin. rewrite (Hfound (User_id u) (User_status u) u) by done.
    by rewrite with_status_same.
Qed.

Lemma count_status_nonneg (s : UserStatus) (users : list User) :
  0 <= count_status s users.
Proof. unfold count_status, Array_length. lia. Qed.

(** Users counted under two different statuses are different users. *)
Lemma count_status_disjoint (s1 s2 : UserStatus) (users : list User) :
  s1 ≠ s2 ->
  count_status s1 users + count_status s2 users <= Array_length users.
Proof.
  intros Hne. unfold count_status, Array_length.
  induction users as [|u users IH]; simpl; [lia |].
  repeat case_bool_decide; simpl; try congruence; lia.
Qed.

(** X9. The statistics of a tenant count the users that [getByTenant]
    lists for it: [totalUsers] is the [total] of every page of the tenant,
    active users and pending invites are different users among them, and
    the storage used lies between 10 and 59 of a limit of 100. *)
Theorem dashboardApi_getStats_counts (random50 : Z) (tenantId : string)
    (page pageSize : Z) :
  0 <= random50 < 50 ->
  totalUsers (dashboardApi_getStats random50 tenantId)
    = total (usersApi_getByTenant tenantId page pageSize) ∧
  0 <= activeUsers (dashboardApi_getStats random50 tenantId) ∧
  0 <= pendingInvites (dashboardApi_getStats random50 tenantId) ∧
  activeUsers (dashboardApi_getStats random50 tenantId)
    + pendingInvites (dashboardApi_getStats random50 tenantId)
    <= totalUsers (dashboardApi_getStats random50 tenantId) ∧
  10 <= storageUsed (dashboardApi_getStats random50 tenantId) <= 59 ∧
  storageLimit (dashboardApi_getStats random50 tenantId) = 100.
Proof.
  intros Hrandom. unfold dashboardApi_getStats, usersApi_getByTenant.
  cbn [totalUsers activeUsers pendingInvites storageUsed storageLimit total].
  split_and!; try done; try apply count_status_nonneg; try lia.
  by apply count_status_disjoint.
Qed.

Lemma dashboardApi_getStats_counts_witness :
  totalUsers (dashboardApi_getStats 7 "tenant-2")
    = total (usersApi_getByTenant "tenant-2" 1 10) ∧
  0 <= activeUsers (dashboardApi_getStats 7 "tenant-2") ∧
  0 <= pendingInvites (dashboardApi_getStats 7 "tenant-2") ∧
  activeUsers (dashboardApi_getStats 7 "tenant-2")
    + pendingInvites (dashboardApi_getStats 7 "tenant-2")
    <= totalUsers (dashboardApi_getStats 7 "tenant-2") ∧
  10 <= storageUsed (dashboardApi_getStats 7 "tenant-2") <= 59 ∧
  storageLimit (dashboardApi_getStats 7 "tenant-2") = 100.
Proof. apply (dashboardApi_getStats_counts 7 "tenant-2" 1 10). lia. Defined.

(** X10. The global statistics count all mock users, as many as [getAll]
    reports, and each of the three user counts is the sum of the counts of
    the tenant statistics over the tenant catalog: every mock user belongs
    to exactly one listed tenant. *)
Theorem dashboardApi_getGlobalStats_sums (random200 random50 : Z)
    (page pageSize : Z) :
  totalUsers (dashboardApi_getGlobalStats random200)
    = total (usersApi_getAll page pageSize) ∧
  totalUsers (dashboardApi_getGlobalStats random200)
    = sum_over_tenants totalUsers random50 mockTenants ∧
  activeUsers (dashboardApi_getGlobalStats random200)
    = sum_over_tenants activeUsers random50 mockTenants ∧
  pendingInvites (dashboardApi_getGlobalStats random200)
    = sum_over_tenants pendingInvites random50 mockTenants ∧
  activeUsers (dashboardApi_getGlobalStats random200)
    + pendingInvites (dashboardApi_getGlobalStats random200)
    <= totalUsers (dashboardApi_getGlobalStats random200).
Proof.
  split_and!; try reflexivity.
  unfold dashboardApi_getGlobalStats. cbn [totalUsers activeUsers pendingInvites].
  by apply count_status_disjoint.
Qed.

(** X11. [tenantsApi.getById] returns a tenant exactly when it is the mock
    tenant with that id, so every tenant that [getAll] lists is returned
    for its own id; for an id of no mock tenant it returns [null]. *)
Theorem tenantsApi_getById_spec (tid : string) :
  (∀ t, tenantsApi_getById tid = Some t ↔ t ∈ mockTenants ∧ Tenant_id t = tid) ∧
  (tenantsApi_getById tid = None ↔ ∀ t, t ∈ mockTenants -> Tenant_id t ≠ tid) ∧
  (∀ t, tenantsApi_getAll = Resolved mockTenants ∧
        (t ∈ mockTenants -> tenantsApi_getById (Tenant_id t) = Some t)).
Proof.
  assert (∀ i t, tenantsApi_getById i = Some t ↔ t ∈ mockTenants ∧ Tenant_id t = i)
    as Hsome.
  { intros i t. unfold tenantsApi_getById, find_tenant. split.
    - destruct (List.find _ mockTenants) as [s|] eqn:Hfind; [| done].
      intros [= ->]. apply find_key_Some in Hfind as (pre & post & Hl & Hid & _).
      split; [| done]. rewrite Hl. apply elem_of_app. right. left.
    - intros [Hin Hid].
      destruct (List.find _ mockTenants) as [s|] eqn:Hfind.
      + apply find_key_Some in Hfind as (pre & post & Hl & Hs & _).
        assert (s ∈ mockTenants) as Hsin.
        { rewrite Hl. apply elem_of_app. right. left. }
        simpl. f_equal. apply mockTenants_id_inj; congruence.
      + exfalso. by apply (proj1 (find_key_None Tenant_id i _) Hfind t). }
  split_and!.
  - apply Hsome.
  - unfold tenantsApi_getById, find_tenant. split.
    + destruct (List.find _ mockTenants) eqn:Hfind; [done |].
      intros _. by apply (find_key_None Tenant_id).
    + intros Hnone. by rewrite (proj2 (find_key_None Tenant_id tid mockTenants) Hnone).
  - intros t. split; [reflexivity |]. intros Hin. by apply Hsome.
Qed.

End MockApi.

(** ** Identity session: failures, restarts and runs *)

Section SessionRuns.

Variable JSON_stringify : User -> string.
Variable JSON_parse : string -> option User.

(** X12. When the Identity Provider rejects a sign-in, [login] throws the
    provider's error on to its caller, writes nothing to the store, keeps
    the user and the authenticated flag it had, and is no longer loading. *)
Theorem login_provider_failure (api : AuthApi) (role : UserRole)
    (tenantId : string) (w : World) (e : Error) :
  api_login api role tenantId = Rejected e ->
  login JSON_stringify api role tenantId w =
    (Rejected e,
     {| localStorage := localStorage w;
        auth := {| user := user (auth w);
                   isAuthenticated := isAuthenticated (auth w);
                   authLoading := false |};
        tenant := tenant w |}).
Proof. intros Hfail. unfold login. eff_unfold. by rewrite Hfail. Qed.

Lemma restoreAuth_restored (w : World) :
  auth w = initialAuthState ->
  auth (exec (restoreAuth JSON_parse) w)
    = restored JSON_parse (localStorage w !! AUTH_STORAGE_KEY).
Proof.
  intros Hinit. unfold restoreAuth, JSON_parse_call, restored. eff_unfold.
  destruct (localStorage w !! AUTH_STORAGE_KEY) as [text|]; simpl;
    [| by rewrite Hinit].
  destruct (truthy text); simpl; [| by rewrite Hinit].
  destruct (JSON_parse text); simpl; [done | by rewrite Hinit].
Qed.

(** After the restore effect the store entry is one that restores the
    session it left. *)
Lemma restoreAuth_entry (w : World) :
  auth w = initialAuthState ->
  restored JSON_parse (localStorage (exec (restoreAuth JSON_parse) w) !! AUTH_STORAGE_KEY)
    = restored JSON_parse (localStorage w !! AUTH_STORAGE_KEY).
Proof.
  intros Hinit. unfold restoreAuth, JSON_parse_call, restored. eff_unfold.
  destruct (localStorage w !! AUTH_STORAGE_KEY) as [text|] eqn:Hentry; simpl;
    [| by rewrite Hentry].
  destruct (truthy text) eqn:Htruthy; simpl; [| by rewrite Hentry, Htruthy].
  destruct (JSON_parse text) eqn:Hparse; simpl.
  - by rewrite Hentry, Htruthy, Hparse.
  - by rewrite lookup_delete_eq.
Qed.

(** X13. The restore effect is idempotent: run again on the state it
    left, it returns without throwing and changes nothing. It always ends
    not loading, leaves the tenant scope alone, and touches no store entry
    but the session's. *)
Theorem restoreAuth_idempotent (w : World) :
  restoreAuth JSON_parse (exec (restoreAuth JSON_parse) w)
    = (Resolved tt, exec (restoreAuth JSON_parse) w) ∧
  authLoading (auth (exec (restoreAuth JSON_parse) w)) = false ∧
  tenant (exec (restoreAuth JSON_parse) w) = tenant w ∧
  (∀ key, key ≠ AUTH_STORAGE_KEY ->
     localStorage (exec (restoreAuth JSON_parse) w) !! key = localStorage w !! key).
Proof.
  unfold restoreAuth, JSON_parse_call. eff_unfold.
  destruct (localStorage w !! AUTH_STORAGE_KEY) as [text|] eqn:Hentry; simpl.
  - destruct (truthy text) eqn:Htruthy; simpl.
    + destruct (JSON_parse text) as [u|] eqn:Hparse; simpl.
      * rewrite Hentry, Htruthy. simpl. rewrite Hparse. simpl. done.
      * rewrite lookup_delete_eq. simpl. split_and!; try done.
        intros key Hkey. by rewrite lookup_delete_ne.
    + rewrite Hentry, Htruthy. simpl. done.
  - rewrite Hentry. simpl. done.
Qed.


Lemma restored_not_loading (entry : option string) :
  authLoading (restored JSON_parse entry) = false.
Proof.
  unfold restored. destruct entry as [text|]; [| done].
  destruct (truthy text); [| done]. by destruct (JSON_parse text).
Qed.

Lemma restored_consistent (entry : option string) :
  session_consistent (restored JSON_parse entry).
Proof.
  assert (session_consistent anonymousAuthState) as Hanon
    by (split; [done | by intros [? ?]]).
  unfold restored.
  destruct entry as [text|]; [| done].
  destruct (truthy text); [| done].
  destruct (JSON_parse text); [| done].
  split; [by eexists | done].
Qed.

Hypothesis JSON_round_trip : ∀ u, JSON_parse (JSON_stringify u) = Some u.
Hypothesis JSON_parse_empty : JSON_parse "" = None.

(** Process start over a store with no session entry, or with one that
    [login] wrote. *)
Lemma reload_stable_process_start (store : gmap string string) :
  session_entry_from_login JSON_stringify store ->
  reload_stable JSON_parse (process_start JSON_parse store).
Proof.
  unfold reload_stable, process_start, restoreAuth, JSON_parse_call, restored.
  intros [Hnone | [u Hentry]]; eff_unfold.
  - rewrite Hnone. simpl. by rewrite Hnone.
  - assert (truthy (JSON_stringify u) = true) as Htruthy.
    { unfold truthy. rewrite bool_decide_eq_false_2; [done |].
      intros Heq. pose proof (JSON_round_trip u) as Hback.
      rewrite Heq in Hback. congruence. }
    rewrite Hentry, Htruthy. simpl. rewrite JSON_round_trip. simpl.
    by rewrite Hentry, Htruthy, JSON_round_trip.
Qed.

Lemma reload_stable_perform (a : Action) (w : World) :
  reload_stable JSON_parse w ->
  reload_stable JSON_parse (exec (perform JSON_stringify a) w).
Proof.
  unfold reload_stable. intros Hw.
  assert (authLoading (auth w) = false) as Hloading
    by (rewrite Hw; apply restored_not_loading).
  destruct a as [api role tenantId | api | api | tenantId | api]; simpl.
  - unfold login. eff_unfold.
    destruct (api_login api role tenantId) as [u|e]; simpl.
    + rewrite lookup_insert_eq. unfold restored, truthy.
      assert (JSON_stringify u ≠ "") as Hfull by (intros Heq; congruence).
      rewrite (bool_decide_eq_false_2 _ Hfull). simpl.
      by rewrite JSON_round_trip.
    + rewrite <- Hw. destruct (auth w). simpl in *. by rewrite Hloading.
  - unfold logout. eff_unfold.
    destruct (api_logout api) as [[]|e]; simpl; [| done].
    by rewrite lookup_delete_eq.
  - unfold loadTenants. eff_unfold.
    destruct (isAuthenticated (auth w)); [| done].
    destruct (user (auth w)) as [u|]; [| done].
    destruct (api_getAll api) as [catalog|e]; simpl; [| done].
    match goal with
    | |- context [mkTenantState ?c _ false] => destruct c as [t|]
    end; simpl; [| done].
    by rewrite lookup_insert_ne.
  - unfold switchTenant. eff_unfold.
    destruct (user (auth w)) as [u|]; [| done].
    destruct (bool_decide (User_role u ≠ super_admin)); [done |].
    destruct (find_tenant tenantId (availableTenants (tenant w))); simpl; [| done].
    by rewrite lookup_insert_ne.
  - unfold refreshTenants. eff_unfold.
    by destruct (api_getAll api).
Qed.

Lemma reload_stable_run (actions : list Action) (w : World) :
  reload_stable JSON_parse w ->
  reload_stable JSON_parse (run JSON_stringify actions w).
Proof.
  revert w. induction actions as [|a actions IH]; intros w Hw; [done |].
  simpl. apply IH. by apply reload_stable_perform.
Qed.

(** X14. Process start over a store whose session entry is absent or is a
    text that a sign-in wrote. In every state that a run of sign-ins,
    sign-outs and tenant operations reaches from there, the session is
    authenticated exactly when it holds a user, it is not loading, and a
    page reload restores the very same session. The two facts used of the
    platform's [JSON] are that parsing the text of an identity gives it
    back and that the empty text does not parse. *)
Theorem session_survives_reload (store : gmap string string)
    (actions : list Action) :
  session_entry_from_login JSON_stringify store ->
  session_consistent
    (auth (run JSON_stringify actions (process_start JSON_parse store))) ∧
  authLoading
    (auth (run JSON_stringify actions (process_start JSON_parse store))) = false ∧
  auth (exec (restoreAuth JSON_parse)
          (reload (run JSON_stringify actions (process_start JSON_parse store))))
    = auth (run JSON_stringify actions (process_start JSON_parse store)).
Proof.
  intros Hstore.
  pose proof (reload_stable_run actions _ (reload_stable_process_start store Hstore))
    as Hstable.
  unfold reload_stable in Hstable.
  split_and!.
  - rewrite Hstable. apply restored_consistent.
  - rewrite Hstable. apply restored_not_loading.
  - rewrite restoreAuth_restored by done. simpl. by rewrite Hstable.
Qed.

End SessionRuns.

Lemma session_survives_reload_witness :
  session_consistent
    (auth (run RefJSON.stringify
             [act_login (authApi sample_clock) org_admin "tenant-2";
              act_loadTenants tenantsApi;
              act_switchTenant "tenant-1";
              act_logout authApi_failing_logout]
             (process_start RefJSON.parse ∅))) ∧
  authLoading
    (auth (run RefJSON.stringify
             [act_login (authApi sample_clock) org_admin "tenant-2";
              act_loadTenants tenantsApi;
              act_switchTenant "tenant-1";
              act_logout authApi_failing_logout]
             (process_start RefJSON.parse ∅))) = false ∧
  auth (exec (restoreAuth RefJSON.parse)
          (reload (run RefJSON.stringify
                     [act_login (authApi sample_clock) org_admin "tenant-2";
                      act_loadTenants tenantsApi;
                      act_switchTenant "tenant-1";
                      act_logout authApi_failing_logout]
                     (process_start RefJSON.parse ∅))))
    = auth (run RefJSON.stringify
              [act_login (authApi sample_clock) org_admin "tenant-2";
               act_loadTenants tenantsApi;
               act_switchTenant "tenant-1";
               act_logout authApi_failing_logout]
              (process_start RefJSON.parse ∅)).
Proof.
  apply (session_survives_reload RefJSON.stringify RefJSON.parse
           RefJSONFacts.parse_stringify RefJSONFacts.parse_empty).
  left. apply lookup_empty.
Defined.

Lemma login_provider_failure_witness :
  login RefJSON.stringify authApi_rejecting member "tenant-1"
    (signed_in org_admin "tenant-2")
  = (Rejected (mkError "Invalid credentials"),
     {| localStorage := localStorage (signed_in org_admin "tenant-2");
        auth := {| user := user (auth (signed_in org_admin "tenant-2"));
                   isAuthenticated := isAuthenticated (auth (signed_in org_admin "tenant-2"));
                   authLoading := false |};
        tenant := tenant (signed_in org_admin "tenant-2") |}).
Proof.
  apply (login_provider_failure RefJSON.stringify authApi_rejecting member "tenant-1").
  reflexivity.
Defined.

(** ** Tenant scope: failures, the switcher and runs *)

Lemma find_tenant_Some (tid : string) (tenants : list Tenant) (t : Tenant) :
  find_tenant tid tenants = Some t -> t ∈ tenants ∧ Tenant_id t = tid.
Proof.
  unfold find_tenant. intros (pre & post & -> & Hid & _)%find_key_Some.
  split; [| done]. apply elem_of_app. right. left.
Qed.

(** X15. When the fetch of the catalog fails, the recompute does not
    throw: it keeps the current and the available tenants it had, ends not
    loading, and leaves the store and the session alone. *)
Theorem loadTenants_fetch_failure (api : TenantsApi) (w : World) (u : User)
    (e : Error) :
  isAuthenticated (auth w) = true ->
  user (auth w) = Some u ->
  api_getAll api = Rejected e ->
  loadTenants api w =
    (Resolved tt,
     {| localStorage := localStorage w;
        auth := auth w;
        tenant := {| currentTenant := currentTenant (tenant w);
                     availableTenants := availableTenants (tenant w);
                     tenantLoading := false |} |}).
Proof.
  intros Hauth Huser Hfail. unfold loadTenants. eff_unfold.
  by rewrite Hauth, Huser, Hfail.
Qed.

Lemma loadTenants_fetch_failure_witness :
  loadTenants tenantsApi_failing (signed_in super_admin "tenant-1") =
    (Resolved tt,
     {| localStorage := localStorage (signed_in super_admin "tenant-1");
        auth := auth (signed_in super_admin "tenant-1");
        tenant :=
          {| currentTenant := currentTenant (tenant (signed_in super_admin "tenant-1"));
             availableTenants := availableTenants (tenant (signed_in super_admin "tenant-1"));
             tenantLoading := false |} |}).
Proof.
  eapply (loadTenants_fetch_failure tenantsApi_failing (signed_in super_admin "tenant-1"));
    [vm_compute; reflexivity | vm_compute; reflexivity | reflexivity].
Defined.

Lemma switchTenant_found (w : World) (u : User) (tenantId : string) (t : Tenant) :
  user (auth w) = Some u ->
  User_role u = super_admin ->
  find_tenant tenantId (availableTenants (tenant w)) = Some t ->
  switchTenant tenantId w =
    (Resolved tt,
     {| localStorage := <[TENANT_STORAGE_KEY := tenantId]> (localStorage w);
        auth := auth w;
        tenant := {| currentTenant := Some t;
                     availableTenants := availableTenants (tenant w);
                     tenantLoading := tenantLoading (tenant w) |} |}).
Proof.
  intros Huser Hrole Hfind. unfold switchTenant. eff_unfold. rewrite Huser.
  rewrite bool_decide_eq_false_2 by (by intros []). by rewrite Hfind.
Qed.

(** X16. Every entry of the tenant switcher works: for a super admin and a
    tenant among the available ones, [switchTenant] with that tenant's id
    does not throw, makes current an available tenant with that id, stores
    the id, and changes neither the available tenants nor the session. *)
Theorem switchTenant_listed_tenant (w : World) (u : User) (t : Tenant) :
  user (auth w) = Some u ->
  User_role u = super_admin ->
  t ∈ availableTenants (tenant w) ->
  ∃ chosen,
    switchTenant (Tenant_id t) w =
      (Resolved tt,
       {| localStorage := <[TENANT_STORAGE_KEY := Tenant_id t]> (localStorage w);
          auth := auth w;
          tenant := {| currentTenant := Some chosen;
                       availableTenants := availableTenants (tenant w);
                       tenantLoading := tenantLoading (tenant w) |} |}) ∧
    chosen ∈ availableTenants (tenant w) ∧
    Tenant_id chosen = Tenant_id t.
Proof.
  intros Huser Hrole Hin.
  destruct (find_key_is_Some Tenant_id (Tenant_id t) (availableTenants (tenant w)))
    as [chosen Hfind]; [by exists t |].
  exists chosen. split; [by apply (switchTenant_found w u) | by apply find_tenant_Some].
Qed.

Lemma switchTenant_listed_tenant_witness :
  ∃ chosen,
    switchTenant "tenant-3" (signed_in super_admin "tenant-1") =
      (Resolved tt,
       {| localStorage :=
            <[TENANT_STORAGE_KEY := "tenant-3"]>
              (localStorage (signed_in super_admin "tenant-1"));
          auth := auth (signed_in super_admin "tenant-1");
          tenant :=
            {| currentTenant := Some chosen;
               availableTenants := availableTenants (tenant (signed_in super_admin "tenant-1"));
               tenantLoading := tenantLoading (tenant (signed_in super_admin "tenant-1")) |} |}) ∧
    chosen ∈ availableTenants (tenant (signed_in super_admin "tenant-1")) ∧
    Tenant_id chosen = "tenant-3".
Proof.
  eapply (switchTenant_listed_tenant (signed_in super_admin "tenant-1") _
            (mkTenant "tenant-3" "Global Dynamics" "global-dynamics" None
               "2024-03-10T09:15:00Z"));
    [vm_compute; reflexivity | vm_compute; reflexivity |].
  replace (availableTenants (tenant (signed_in super_admin "tenant-1")))
    with mockTenants by (vm_compute; reflexivity).
  unfold mockTenants. do 2 right. left.
Defined.

(** X17. A super admin's choice of tenant survives a restart of the tenant
    scope: after [switchTenant] to an id that is not the empty string, a
    recompute over the same catalog, from the initial tenant state, makes
    the same tenant current and lists the same tenants. *)
Theorem tenant_choice_survives_restart (api : TenantsApi) (w : World)
    (u : User) (tenantId : string) :
  isAuthenticated (auth w) = true ->
  user (auth w) = Some u ->
  User_role u = super_admin ->
  api_getAll api = Resolved (availableTenants (tenant w)) ->
  tenantId ≠ "" ->
  (∃ t, t ∈ availableTenants (tenant w) ∧ Tenant_id t = tenantId) ->
  is_Some (currentTenant (tenant (exec (switchTenant tenantId) w))) ∧
  currentTenant
    (tenant (exec (loadTenants api)
               (with_tenant initialTenantState (exec (switchTenant tenantId) w))))
    = currentTenant (tenant (exec (switchTenant tenantId) w)) ∧
  availableTenants
    (tenant (exec (loadTenants api)
               (with_tenant initialTenantState (exec (switchTenant tenantId) w))))
    = availableTenants (tenant (exec (switchTenant tenantId) w)).
Proof.
  intros Hauth Huser Hrole Hfetch Hfull Hlisted.
  apply (find_key_is_Some Tenant_id) in Hlisted as [t Hfind].
  unfold exec. rewrite !(switchTenant_found w u tenantId t) by done.
  cbn [snd]. unfold loadTenants. eff_unfold.
  rewrite Hauth, Huser, Hfetch. simpl.
  rewrite (bool_decide_eq_true_2 _ Hrole), lookup_insert_eq.
  unfold truthy. rewrite (bool_decide_eq_false_2 _ Hfull). simpl.
  unfold find_tenant in *. rewrite Hfind. simpl.
  split_and!; [by eexists | done | done].
Qed.

Lemma tenant_choice_survives_restart_witness :
  is_Some (currentTenant (tenant (exec (switchTenant "tenant-2")
                                    (signed_in super_admin "tenant-1")))) ∧
  currentTenant
    (tenant (exec (loadTenants tenantsApi)
               (with_tenant initialTenantState
                  (exec (switchTenant "tenant-2") (signed_in super_admin "tenant-1")))))
    = currentTenant (tenant (exec (switchTenant "tenant-2")
                               (signed_in super_admin "tenant-1"))) ∧
  availableTenants
    (tenant (exec (loadTenants tenantsApi)
               (with_tenant initialTenantState
                  (exec (switchTenant "tenant-2") (signed_in super_admin "tenant-1")))))
    = availableTenants (tenant (exec (switchTenant "tenant-2")
                                  (signed_in super_admin "tenant-1"))).
Proof.
  eapply (tenant_choice_survives_restart tenantsApi (signed_in super_admin "tenant-1")
            _ "tenant-2");
    [vm_compute; reflexivity | vm_compute; reflexivity | vm_compute; reflexivity
    | vm_compute; reflexivity | discriminate |].
  exists (mkTenant "tenant-2" "TechStart Inc" "techstart" None "2024-02-20T14:30:00Z").
  split; [| reflexivity].
  replace (availableTenants (tenant (signed_in super_admin "tenant-1")))
    with mockTenants by (vm_compute; reflexivity).
  unfold mockTenants. right. left.
Defined.

(** X18. What a successful recompute resolves: a current tenant is always
    an entry of the fetched catalog, and the store then holds its id. A
    role that can switch is left without a tenant only by an empty catalog;
    a role that cannot switch gets a tenant whose id is its own tenant id,
    or none. *)
Theorem loadTenants_resolution (api : TenantsApi) (catalog : list Tenant)
    (w : World) (u : User) :
  isAuthenticated (auth w) = true ->
  user (auth w) = Some u ->
  api_getAll api = Resolved catalog ->
  (∀ t, currentTenant (tenant (exec (loadTenants api) w)) = Some t ->
        t ∈ catalog ∧
        localStorage (exec (loadTenants api) w) !! TENANT_STORAGE_KEY
          = Some (Tenant_id t)) ∧
  (User_role u = super_admin ->
     (currentTenant (tenant (exec (loadTenants api) w)) = None ↔ catalog = [])) ∧
  (User_role u ≠ super_admin ->
     ∀ t, currentTenant (tenant (exec (loadTenants api) w)) = Some t ->
          Tenant_id t = User_tenantId u).
Proof.
  intros Hauth Huser Hfetch. unfold loadTenants. eff_unfold.
  rewrite Hauth, Huser, Hfetch. simpl.
  assert (∀ t, head catalog = Some t -> t ∈ catalog) as Hhead.
  { intros t Ht. destruct catalog; [done |]. injection Ht as ->. left. }
  destruct (decide (User_role u = super_admin)) as [Hrole | Hrole].
  - rewrite (bool_decide_eq_true_2 _ Hrole).
    set (current := match localStorage w !! TENANT_STORAGE_KEY with
                    | Some sid => _ | None => _ end).
    assert (∀ t, current = Some t -> t ∈ catalog) as Hin.
    { intros t. unfold current.
      destruct (localStorage w !! TENANT_STORAGE_KEY) as [sid|]; [| apply Hhead].
      destruct (truthy sid); [| apply Hhead].
      destruct (find_tenant sid catalog) as [s|] eqn:Hfind; simpl; [| apply Hhead].
      intros [= <-]. by apply find_tenant_Some in Hfind as [? _]. }
    assert (current = None ↔ catalog = []) as Hnone.
    { split.
      - unfold current.
        destruct (localStorage w !! TENANT_STORAGE_KEY) as [sid|];
          [destruct (truthy sid); [destruct (find_tenant sid catalog); [done |] |] |];
          simpl; by destruct catalog.
      - intros ->. unfold current.
        destruct (localStorage w !! TENANT_STORAGE_KEY) as [sid|]; [| done].
        by destruct (truthy sid). }
    clearbody current. destruct current as [c|]; simpl; (split_and!; [| done | done]).
    + intros t [= <-]. split; [by apply Hin | apply lookup_insert_eq].
    + done.
  - rewrite (bool_decide_eq_false_2 _ Hrole).
    destruct (find_tenant (User_tenantId u) catalog) as [c|] eqn:Hfind; simpl.
    + apply find_tenant_Some in Hfind as [Hin Hid].
      split_and!; [| done |].
      * intros t [= <-]. split; [done | apply lookup_insert_eq].
      * by intros _ t [= <-].
    + split_and!; done.
Qed.

Lemma loadTenants_resolution_witness :
  ∃ t, currentTenant (tenant (exec (loadTenants tenantsApi)
                                (after_login org_admin "tenant-3"))) = Some t ∧
       t ∈ mockTenants ∧ Tenant_id t = "tenant-3".
Proof.
  assert (∃ u, user (auth (after_login org_admin "tenant-3")) = Some u ∧
               User_role u = org_admin ∧ User_tenantId u = "tenant-3")
    as (u & Huser & Hrole & Htenant)
    by (eexists; vm_compute; split_and!; reflexivity).
  destruct (loadTenants_resolution tenantsApi mockTenants
              (after_login org_admin "tenant-3") u)
    as (Hin & _ & Hlocked);
    [vm_compute; reflexivity | exact Huser | reflexivity |].
  assert (∃ t, currentTenant (tenant (exec (loadTenants tenantsApi)
                                        (after_login org_admin "tenant-3"))) = Some t)
    as [t Ht] by (eexists; vm_compute; reflexivity).
  exists t. split_and!; [exact Ht | by apply Hin |].
  rewrite <- Htenant. apply Hlocked; [by rewrite Hrole | exact Ht].
Defined.

(** ** Tenant isolation along runs, and in the pages *)

Section LockedRoles.

Variable JSON_stringify : User -> string.

(** The recompute of a role that cannot switch. *)
Lemma loadTenants_locked (api : TenantsApi) (catalog : list Tenant)
    (w : World) (u : User) :
  isAuthenticated (auth w) = true ->
  user (auth w) = Some u ->
  User_role u ≠ super_admin ->
  api_getAll api = Resolved catalog ->
  currentTenant (tenant (exec (loadTenants api) w))
    = find_tenant (User_tenantId u) catalog ∧
  auth (exec (loadTenants api) w) = auth w.
Proof.
  intros Hauth Huser Hrole Hfetch. unfold loadTenants. eff_unfold.
  rewrite Hauth, Huser, Hfetch. simpl.
  rewrite (bool_decide_eq_false_2 _ Hrole).
  by destruct (find_tenant (User_tenantId u) catalog).
Qed.

(** The switcher and a refresh leave the session and the current tenant of
    such a role as they are. *)
Lemma locked_perform (a : Action) (w : World) (u : User) :
  tenant_action a ->
  user (auth w) = Some u ->
  User_role u ≠ super_admin ->
  auth (exec (perform JSON_stringify a) w) = auth w ∧
  currentTenant (tenant (exec (perform JSON_stringify a) w)) = currentTenant (tenant w) ∧
  localStorage (exec (perform JSON_stringify a) w) = localStorage w.
Proof.
  intros Ha Huser Hrole.
  destruct a as [api role tenantId | api | api | tenantId | api]; try done; simpl.
  - unfold switchTenant. eff_unfold. rewrite Huser.
    by rewrite (bool_decide_eq_true_2 _ Hrole).
  - unfold refreshTenants. eff_unfold. by destruct (api_getAll api).
Qed.

Lemma locked_run (actions : list Action) (w : World) (u : User) :
  Forall tenant_action actions ->
  user (auth w) = Some u ->
  User_role u ≠ super_admin ->
  auth (run JSON_stringify actions w) = auth w ∧
  currentTenant (tenant (run JSON_stringify actions w)) = currentTenant (tenant w) ∧
  localStorage (run JSON_stringify actions w) = localStorage w.
Proof.
  intros Hactions. revert w.
  induction Hactions as [|a actions Ha _ IH]; intros w Huser Hrole; [done |].
  simpl. destruct (locked_perform a w u Ha Huser Hrole) as (Hauth & Hcur & Hstore).
  destruct (IH (exec (perform JSON_stringify a) w)) as (Hauth' & Hcur' & Hstore');
    [by rewrite Hauth | done |].
  split_and!; congruence.
Qed.

Lemma locked_state (api : TenantsApi) (catalog : list Tenant) (w : World)
    (u : User) (actions : list Action) :
  isAuthenticated (auth w) = true ->
  user (auth w) = Some u ->
  User_role u ≠ super_admin ->
  api_getAll api = Resolved catalog ->
  Forall tenant_action actions ->
  user (auth (run JSON_stringify actions (exec (loadTenants api) w))) = Some u ∧
  currentTenant (tenant (run JSON_stringify actions (exec (loadTenants api) w)))
    = find_tenant (User_tenantId u) catalog.
Proof.
  intros Hauth Huser Hrole Hfetch Hactions.
  destruct (loadTenants_locked api catalog w u Hauth Huser Hrole Hfetch)
    as [Hcur Hsame].
  destruct (locked_run actions (exec (loadTenants api) w) u Hactions)
    as (Hauth' & Hcur' & _); [by rewrite Hsame | done |].
  split; congruence.
Qed.

(** X19. A role that cannot switch stays on its own tenant: after the
    recompute, and after any number of switch attempts and refreshes, the
    current tenant is the first catalog entry with the identity's tenant
    id, or none; it never is a tenant with another id. *)
Theorem tenant_pinned_for_locked_roles (api : TenantsApi) (catalog : list Tenant)
    (w : World) (u : User) (actions : list Action) :
  isAuthenticated (auth w) = true ->
  user (auth w) = Some u ->
  User_role u ≠ super_admin ->
  api_getAll api = Resolved catalog ->
  Forall tenant_action actions ->
  currentTenant (tenant (run JSON_stringify actions (exec (loadTenants api) w)))
    = find_tenant (User_tenantId u) catalog ∧
  (∀ t, currentTenant (tenant (run JSON_stringify actions (exec (loadTenants api) w)))
          = Some t ->
        t ∈ catalog ∧ Tenant_id t = User_tenantId u).
Proof.
  intros Hauth Huser Hrole Hfetch Hactions.
  destruct (locked_state api catalog w u actions) as [_ Hcur]; try done.
  split; [done |]. intros t Ht. rewrite Hcur in Ht. by apply find_tenant_Some.
Qed.


End LockedRoles.

(** X21. For a super admin the switcher changes nothing in what the Users
    page and the Dashboard page load: with a current tenant, they load all
    users and the global statistics, the same before and after a switch to
    any available tenant. *)
Theorem super_admin_pages_ignore_switch (w : World) (u : User) (t : Tenant)
    (page random50 random200 : Z) :
  user (auth w) = Some u ->
  User_role u = super_admin ->
  is_Some (currentTenant (tenant w)) ->
  t ∈ availableTenants (tenant w) ->
  Users_loadUsers (user (auth (exec (switchTenant (Tenant_id t)) w)))
    (currentTenant (tenant (exec (switchTenant (Tenant_id t)) w))) page
    = Users_loadUsers (user (auth w)) (currentTenant (tenant w)) page ∧
  Users_loadUsers (user (auth w)) (currentTenant (tenant w)) page
    = Some (usersApi_getAll page Users_pageSize) ∧
  Dashboard_loadStats (user (auth (exec (switchTenant (Tenant_id t)) w)))
    (currentTenant (tenant (exec (switchTenant (Tenant_id t)) w))) random50 random200
    = Dashboard_loadStats (user (auth w)) (currentTenant (tenant w)) random50 random200 ∧
  Dashboard_loadStats (user (auth w)) (currentTenant (tenant w)) random50 random200
    = Some (dashboardApi_getGlobalStats random200).
Proof.
  intros Huser Hrole [current Hcurrent] Hin.
  destruct (find_key_is_Some Tenant_id (Tenant_id t) (availableTenants (tenant w)))
    as [chosen Hfind]; [by exists t |].
  unfold exec. rewrite (switchTenant_found w u (Tenant_id t) chosen) by done.
  cbn [snd auth tenant currentTenant]. rewrite Huser, Hcurrent.
  unfold Users_loadUsers, Dashboard_loadStats, is_super_admin.
  by rewrite (bool_decide_eq_true_2 _ Hrole).
Qed.

Lemma tenant_pinned_for_locked_roles_witness :
  currentTenant
    (tenant (run RefJSON.stringify
               [act_switchTenant "tenant-3"; act_refreshTenants tenantsApi;
                act_switchTenant "tenant-1"]
               (exec (loadTenants tenantsApi) (after_login member "tenant-2"))))
    = find_tenant "tenant-2" mockTenants.
Proof.
  assert (∃ u, user (auth (after_login member "tenant-2")) = Some u ∧
               User_role u = member ∧ User_tenantId u = "tenant-2")
    as (u & Huser & Hrole & Htenant)
    by (eexists; vm_compute; split_and!; reflexivity).
  destruct (tenant_pinned_for_locked_roles RefJSON.stringify tenantsApi mockTenants
              (after_login member "tenant-2") u
              [act_switchTenant "tenant-3"; act_refreshTenants tenantsApi;
               act_switchTenant "tenant-1"]) as [Hpinned _];
    [vm_compute; reflexivity | exact Huser | by rewrite Hrole | reflexivity
    | repeat constructor |].
  by rewrite Htenant in Hpinned.
Defined.


Lemma super_admin_pages_ignore_switch_witness :
  Users_loadUsers
    (user (auth (exec (switchTenant "tenant-3") (signed_in super_admin "tenant-1"))))
    (currentTenant (tenant (exec (switchTenant "tenant-3") (signed_in super_admin "tenant-1"))))
    1
  = Users_loadUsers (user (auth (signed_in super_admin "tenant-1")))
      (currentTenant (tenant (signed_in super_admin "tenant-1"))) 1.
Proof.
  assert (∃ u, user (auth (signed_in super_admin "tenant-1")) = Some u ∧
               User_role u = super_admin)
    as (u & Huser & Hrole)
    by (eexists; vm_compute; split; reflexivity).
  destruct (super_admin_pages_ignore_switch (signed_in super_admin "tenant-1") u
              (mkTenant "tenant-3" "Global Dynamics" "global-dynamics" None
                 "2024-03-10T09:15:00Z") 1 0 0) as [Hsame _];
    [exact Huser | exact Hrole | vm_compute; by eexists | | exact Hsame].
  replace (availableTenants (tenant (signed_in super_admin "tenant-1")))
    with mockTenants by (vm_compute; reflexivity).
  unfold mockTenants. do 2 right. left.
Defined.

(** ** Routes, sidebar and sign-in page *)

Lemma ProtectedRoute_Children (required : option (list UserRole))
    (a : AuthState) (t : TenantState) (pathname : string) :
  ProtectedRoute required a t pathname = Children ↔
  ¬ session_loading a t ∧
  ∃ u, identity a u ∧
       (∀ roles, required = Some roles -> User_role u ∈ roles) ∧
       canAccessRoute (User_role u) pathname = true.
Proof.
  split.
  - intros Hshown. pose proof (ProtectedRoute_sound required a t pathname) as Hspec.
    rewrite Hshown in Hspec. inversion Hspec; subst. split; [done |]. by eexists.
  - intros (Hready & u & Hid & Hroles & Hroute).
    eapply evaluateAccess_functional; [apply ProtectedRoute_sound |].
    by eapply access_allow.
Qed.

(** X22. The routes of the application show the Users page only to an
    identity with [canManageUsers] and the Settings page only to one with
    [canEditSettings], whatever the path string of the location; on the two
    catalog paths such an identity, once nothing is loading, does get the
    page, inside the layout. Without an identity no dashboard route shows
    the layout. *)
Theorem App_pages_need_permission (a : AuthState) (t : TenantState)
    (pathname : string) :
  (App route_dashboard_users a t pathname = ShowLayout (ShowPage page_Users) ->
     ∃ u, identity a u ∧ hasPermission (User_role u) key_canManageUsers = true) ∧
  (App route_dashboard_settings a t pathname = ShowLayout (ShowPage page_Settings) ->
     ∃ u, identity a u ∧ hasPermission (User_role u) key_canEditSettings = true) ∧
  (∀ u, ¬ session_loading a t ∧ identity a u ->
     (hasPermission (User_role u) key_canManageUsers = true ->
        App route_dashboard_users a t "/dashboard/users"
          = ShowLayout (ShowPage page_Users)) ∧
     (hasPermission (User_role u) key_canEditSettings = true ->
        App route_dashboard_settings a t "/dashboard/settings"
          = ShowLayout (ShowPage page_Settings))) ∧
  (anonymous a ->
     ∀ matched outlet, App matched a t pathname ≠ ShowLayout outlet).
Proof.
  split_and!.
  - unfold App, guarded.
    destruct (ProtectedRoute None a t pathname) eqn:Houter; try done.
    destruct (ProtectedRoute (Some [super_admin; org_admin]) a t pathname)
      eqn:Hinner; try done.
    intros _. apply ProtectedRoute_Children in Hinner as (_ & u & Hid & Hroles & _).
    exists u. split; [done |].
    specialize (Hroles _ eq_refl). rewrite !elem_of_cons, elem_of_nil in Hroles.
    by destruct Hroles as [-> | [-> | []]].
  - unfold App, guarded.
    destruct (ProtectedRoute None a t pathname) eqn:Houter; try done.
    destruct (ProtectedRoute (Some [super_admin; org_admin]) a t pathname)
      eqn:Hinner; try done.
    intros _. apply ProtectedRoute_Children in Hinner as (_ & u & Hid & Hroles & _).
    exists u. split; [done |].
    specialize (Hroles _ eq_refl). rewrite !elem_of_cons, elem_of_nil in Hroles.
    by destruct Hroles as [-> | [-> | []]].
  - intros u [Hready Hid]. split; intros Hperm; unfold App, guarded.
    + rewrite (proj2 (ProtectedRoute_Children None a t "/dashboard/users"));
        [| split; [done |]; exists u; split_and!; [done | done |];
           by destruct (User_role u)].
      rewrite (proj2 (ProtectedRoute_Children (Some [super_admin; org_admin]) a t
                        "/dashboard/users")); [done |].
      split; [done |]. exists u. split_and!; [done | |];
        [intros roles [= <-] |]; destruct (User_role u); try done;
        rewrite !elem_of_cons; auto.
    + rewrite (proj2 (ProtectedRoute_Children None a t "/dashboard/settings"));
        [| split; [done |]; exists u; split_and!; [done | done |];
           by destruct (User_role u)].
      rewrite (proj2 (ProtectedRoute_Children (Some [super_admin; org_admin]) a t
                        "/dashboard/settings")); [done |].
      split; [done |]. exists u. split_and!; [done | |];
        [intros roles [= <-] |]; destruct (User_role u); try done;
        rewrite !elem_of_cons; auto.
  - intros Hanon matched outlet. unfold App, guarded.
    destruct matched; try done;
      destruct (ProtectedRoute None a t pathname) eqn:Houter; try done;
      apply ProtectedRoute_Children in Houter as (_ & u & Hid & _);
      exfalso; by eapply anonymous_not_identity.
Qed.

(** X23. The sidebar offers only what works. It renders nothing without a
    user. With one, it shows the tenant switcher exactly when the role has
    [canSwitchTenants]; every navigation link it shows leads to a path the
    guard allows to the role; and every tenant in the switcher's menu can
    be switched to: [switchTenant] with its id does not throw. *)
Theorem DashboardSidebar_offers_what_works (w : World) :
  (user (auth w) = None -> DashboardSidebar (auth w) (tenant w) = None) ∧
  (∀ u, user (auth w) = Some u ->
     ∃ view,
       DashboardSidebar (auth w) (tenant w) = Some view ∧
       sidebar_canSwitchTenants view = hasPermission (User_role u) key_canSwitchTenants ∧
       (∀ item, item ∈ sidebar_navItems view ->
          canAccessRoute (User_role u) (path item) = true) ∧
       (∀ t, t ∈ sidebar_tenantMenu view ->
          fst (switchTenant (Tenant_id t) w) = Resolved tt)).
Proof.
  split.
  - intros Hnone. unfold DashboardSidebar. by rewrite Hnone.
  - intros u Huser. unfold DashboardSidebar. rewrite Huser.
    eexists. split; [reflexivity |]. cbn [sidebar_canSwitchTenants sidebar_navItems
      sidebar_tenantMenu]. split_and!.
    + by destruct (User_role u).
    + intros item Hitem. unfold getNavigationForRole in Hitem.
      apply list_elem_of_In, filter_In in Hitem as [Hin Hok].
      apply list_elem_of_In in Hin. by rewrite canAccessRoute_of_entry.
    + intros t Hin. case_bool_decide as Hrole; [| by apply elem_of_nil in Hin].
      destruct (find_key_is_Some Tenant_id (Tenant_id t) (availableTenants (tenant w)))
        as [chosen Hfind]; [by exists t |].
      by rewrite (switchTenant_found w u (Tenant_id t) chosen).
Qed.

Lemma DashboardSidebar_offers_what_works_witness :
  ∃ view,
    DashboardSidebar (auth (signed_in super_admin "tenant-1"))
      (tenant (signed_in super_admin "tenant-1")) = Some view ∧
    sidebar_canSwitchTenants view = true ∧
    (∀ t, t ∈ sidebar_tenantMenu view ->
       fst (switchTenant (Tenant_id t) (signed_in super_admin "tenant-1")) = Resolved tt).
Proof.
  assert (∃ u, user (auth (signed_in super_admin "tenant-1")) = Some u ∧
               User_role u = super_admin)
    as (u & Huser & Hrole)
    by (eexists; vm_compute; split; reflexivity).
  destruct (DashboardSidebar_offers_what_works (signed_in super_admin "tenant-1"))
    as [_ Hview].
  destruct (Hview u Huser) as (view & Hshown & Hswitch & _ & Hmenu).
  exists view. split_and!; [exact Hshown | by rewrite Hswitch, Hrole | exact Hmenu].
Defined.

Section LoginPageProperties.

Variable JSON_stringify : User -> string.

(** X24. [handleLogin] makes no sign-in attempt while no tenant is
    selected: it shows "Please select a tenant" and changes nothing, which
    is also what happens after a fetch that failed or gave an empty
    catalog. With a tenant selected, a sign-in that the provider accepts
    ends authenticated as the provider's user, with the session stored, a
    welcome toast and a navigation to the dashboard; one that the provider
    rejects ends with "Login failed", no navigation, nothing stored and the
    user as before. Either way the page is no longer loading. *)
Theorem handleLogin_outcomes (api : AuthApi) (s : LoginState) (w : World) :
  (selectedTenant s = "" ->
     handleLogin JSON_stringify api s w
       = ([ui_toast "Please select a tenant" None true], s, w)) ∧
  (∀ tenantsApi',
     api_getAll tenantsApi' = Resolved [] ∨ (∃ e, api_getAll tenantsApi' = Rejected e) ->
     handleLogin JSON_stringify api (Login_loadTenants tenantsApi' Login_initialState) w
       = ([ui_toast "Please select a tenant" None true],
          Login_loadTenants tenantsApi' Login_initialState, w)) ∧
  (∀ u, selectedTenant s ≠ "" ∧
        api_login api (selectedRole s) (selectedTenant s) = Resolved u ->
     handleLogin JSON_stringify api s w
       = ([ui_toast "Welcome back!"
             (Some ("Logged in as " +:+ getRoleDisplayName (selectedRole s))) false;
           ui_navigate "/dashboard"],
          with_isLoading false s,
          {| localStorage := <[AUTH_STORAGE_KEY := JSON_stringify u]> (localStorage w);
             auth := {| user := Some u; isAuthenticated := true; authLoading := false |};
             tenant := tenant w |})) ∧
  (∀ e, selectedTenant s ≠ "" ∧
        api_login api (selectedRole s) (selectedTenant s) = Rejected e ->
     handleLogin JSON_stringify api s w
       = ([ui_toast "Login failed" (Some "Please try again") true],
          with_isLoading false s,
          {| localStorage := localStorage w;
             auth := {| user := user (auth w);
                        isAuthenticated := isAuthenticated (auth w);
                        authLoading := false |};
             tenant := tenant w |})).
Proof.
  split_and!.
  - intros Hempty. unfold handleLogin, truthy. by rewrite Hempty.
  - intros tenantsApi' [Hnone | [e Hfail]]; unfold handleLogin, Login_loadTenants;
      [rewrite Hnone | rewrite Hfail]; done.
  - intros u [Hfull Hok]. unfold handleLogin, truthy.
    rewrite (bool_decide_eq_false_2 _ Hfull). simpl.
    unfold login. eff_unfold. by rewrite Hok.
  - intros e [Hfull Hfail]. unfold handleLogin, truthy.
    rewrite (bool_decide_eq_false_2 _ Hfull). simpl.
    unfold login. eff_unfold. by rewrite Hfail.
Qed.

End LoginPageProperties.

Lemma handleLogin_outcomes_witness :
  handleLogin RefJSON.stringify authApi_rejecting
    (Login_loadTenants tenantsApi Login_initialState) initialWorld
  = ([ui_toast "Login failed" (Some "Please try again") true],
     with_isLoading false (Login_loadTenants tenantsApi Login_initialState),
     {| localStorage := localStorage initialWorld;
        auth := {| user := user (auth initialWorld);
                   isAuthenticated := isAuthenticated (auth initialWorld);
                   authLoading := false |};
        tenant := tenant initialWorld |}) ∧
  handleLogin RefJSON.stringify (authApi sample_clock)
    (Login_loadTenants tenantsApi_failing Login_initialState) initialWorld
  = ([ui_toast "Please select a tenant" None true],
     Login_loadTenants tenantsApi_failing Login_initialState, initialWorld).
Proof.
  destruct (handleLogin_outcomes RefJSON.stringify authApi_rejecting
              (Login_loadTenants tenantsApi Login_initialState) initialWorld)
    as (_ & _ & _ & Hrejected).
  destruct (handleLogin_outcomes RefJSON.stringify (authApi sample_clock)
              Login_initialState initialWorld)
    as (_ & Hnone & _ & _).
  split.
  - apply (Hrejected (mkError "Invalid credentials")). split; [discriminate | reflexivity].
  - apply Hnone. right. by eexists.
Defined.

(** The sign-in page as it opens on the mock data: the first tenant is
    selected, and a sign-in with the preset role ends on the dashboard as
    the org admin of that tenant. *)
Example Login_default_sign_in :
  selectedTenant (Login_loadTenants tenantsApi Login_initialState) = "tenant-1" ∧
  (handleLogin RefJSON.stringify (authApi sample_clock)
     (Login_loadTenants tenantsApi Login_initialState) initialWorld).1.1
  = [ui_toast "Welcome back!" (Some "Logged in as Organization Admin") false;
     ui_navigate "/dashboard"] ∧
  user (auth (handleLogin RefJSON.stringify (authApi sample_clock)
                (Login_loadTenants tenantsApi Login_initialState) initialWorld).2)
  = mockUsers !! 1%nat.
Proof. vm_compute. split_and!; reflexivity. Qed.

(** ** Sign-out and refresh, composed with the tenant scope *)

(** X25. A sign-out that the provider accepts, followed by the tenant
    effect it triggers, leaves an anonymous session and an empty tenant
    scope that is not loading, but it does not remove the persisted tenant
    choice: the store still holds under the tenant key what it held. *)
Theorem logout_keeps_tenant_choice (authApi' : AuthApi) (tenantsApi' : TenantsApi)
    (w : World) :
  api_logout authApi' = Resolved tt ->
  auth (exec (loadTenants tenantsApi') (exec (logout authApi') w)) = anonymousAuthState ∧
  tenant (exec (loadTenants tenantsApi') (exec (logout authApi') w))
    = {| currentTenant := None; availableTenants := []; tenantLoading := false |} ∧
  localStorage (exec (loadTenants tenantsApi') (exec (logout authApi') w))
    !! TENANT_STORAGE_KEY = localStorage w !! TENANT_STORAGE_KEY ∧
  localStorage (exec (loadTenants tenantsApi') (exec (logout authApi') w))
    !! AUTH_STORAGE_KEY = None.
Proof.
  intros Hok. unfold logout, loadTenants. eff_unfold. rewrite Hok. simpl.
  split_and!; [done | done | by rewrite lookup_delete_ne | apply lookup_delete_eq].
Qed.

Lemma logout_keeps_tenant_choice_witness :
  tenant (exec (loadTenants tenantsApi)
            (exec (logout (authApi sample_clock)) (signed_in org_admin "tenant-2")))
    = {| currentTenant := None; availableTenants := []; tenantLoading := false |} ∧
  localStorage (exec (loadTenants tenantsApi)
                  (exec (logout (authApi sample_clock)) (signed_in org_admin "tenant-2")))
    !! TENANT_STORAGE_KEY = Some "tenant-2".
Proof.
  destruct (logout_keeps_tenant_choice (authApi sample_clock) tenantsApi
              (signed_in org_admin "tenant-2")) as (_ & Hscope & Hchoice & _);
    [reflexivity |].
  split; [exact Hscope |]. rewrite Hchoice. vm_compute. reflexivity.
Defined.

(** What that means for the next user: an org admin of tenant-2 signs out,
    a super admin signs in, and starts on tenant-2, not on the first
    tenant of the catalog. *)
Example tenant_choice_passes_to_next_user :
  currentTenant
    (tenant (run RefJSON.stringify
               [act_login (authApi sample_clock) org_admin "tenant-2";
                act_loadTenants tenantsApi;
                act_logout (authApi sample_clock);
                act_loadTenants tenantsApi;
                act_login (authApi sample_clock) super_admin "tenant-1";
                act_loadTenants tenantsApi]
               (process_start RefJSON.parse ∅)))
  = mockTenants !! 1%nat.
Proof. vm_compute. reflexivity. Qed.

(** X26. Of two refreshes the last one decides: when the second fetch
    succeeds, the state after both is the state after the second alone,
    whatever the first fetch gave. So a refresh repeated over an unchanged
    catalog changes nothing more. *)
Theorem refreshTenants_last_wins (first second : TenantsApi) (w : World)
    (catalog : list Tenant) :
  api_getAll second = Resolved catalog ->
  refreshTenants second (exec (refreshTenants first) w) =
    (Resolved tt, exec (refreshTenants second) w) ∧
  refreshTenants second (exec (refreshTenants second) w) =
    (Resolved tt, exec (refreshTenants second) w).
Proof.
  intros Hok. unfold refreshTenants. eff_unfold. rewrite Hok. simpl.
  by destruct (api_getAll first).
Qed.

Lemma refreshTenants_last_wins_witness :
  refreshTenants tenantsApi
    (exec (refreshTenants tenantsApi_without_first) (signed_in super_admin "tenant-1"))
  = (Resolved tt, exec (refreshTenants tenantsApi) (signed_in super_admin "tenant-1")).
Proof.
  destruct (refreshTenants_last_wins tenantsApi_without_first tenantsApi
              (signed_in super_admin "tenant-1") mockTenants) as [Hlast _];
    [reflexivity | exact Hlast].
Defined.
